(** * sqlhelper: struct-to-column extraction and INSERT statement building

    A shallow embedding of [q.go] (package [sqlhelper]) and the properties
    of its functions [getName], [StructToKVs], [Query.InsertInto],
    [Query.ExecInsert], [Query.Copy] and [WrapCopyIn].

    Go strings are byte sequences: they are modelled by [string], whose
    characters ([ascii]) are exactly the 256 byte values. *)

From Stdlib Require Import ZArith String Ascii List DecimalString DecimalZ
     DecimalPos.
From stdpp Require Import base gmap strings list.

Local Open Scope list_scope.
Local Open Scope Z_scope.

(** ** Panics and results of pure functions *)

(** The run-time panics that the functions of the package can raise. *)
Inductive panic : Type :=
| NotAStruct          (* StructToKVs: "%#+v is not a struct" *)
| UnexportedField     (* reflect.Value.Interface on an unexported field *)
| NeedKey             (* InsertInto: "need at least one key" *)
| InvalidType         (* ExecInsert: "invalid type: %T" *)
| NilDereference      (* method called through a nil *Query *)
| NegativeGrow        (* strings.Builder.Grow: negative count *)
| CallbackPanic.      (* a panic raised inside the caller's callback *)

Inductive outcome (A : Type) : Type :=
| Returns (a : A)
| Panics (p : panic).
Arguments Returns {A} a.
Arguments Panics {A} p.

(** ** Library functions used by the extractor *)

(** [rune(t.Name[0])]: a byte converted to a code point. *)
Definition rune (b : ascii) : Z := Z.of_N (N_of_ascii b).

(** [unicode.IsLower] on the Latin-1 range, the only range a single byte can
    reach: the letters of category Ll are a-z, the micro sign, and
    U+00DF..U+00FF without the division sign U+00F7. *)
Definition unicode_IsLower (r : Z) : bool :=
  ((0x61 <=? r) && (r <=? 0x7A))
  || (r =? 0xB5)
  || ((0xDF <=? r) && (r <=? 0xF6))
  || ((0xF8 <=? r) && (r <=? 0xFF)).

(** [strings.Split(s, sep)] for a one-byte separator: the pieces of [s]
    between the occurrences of [sep]; never an empty slice. *)
Fixpoint strings_Split (s : string) (sep : ascii) : list string :=
  match s with
  | EmptyString => [EmptyString]
  | String c rest =>
    if Ascii.eqb c sep then EmptyString :: strings_Split rest sep
    else match strings_Split rest sep with
         | p :: ps => String c p :: ps
         | [] => [String c EmptyString]
         end
  end.

(** A struct tag in its conventional form, a sequence of [key:"value"]
    pairs. [reflect.StructTag.Get] returns the value of the first pair with
    the given key, and the empty string when there is none. *)
Definition StructTag : Type := list (string * string).

Fixpoint Tag_Get (tag : StructTag) (key : string) : string :=
  match tag with
  | [] => ""
  | (k, v) :: rest => if String.eqb k key then v else Tag_Get rest key
  end.

(** [reflect.StructField], with the members the package reads. [PkgPath] is
    empty exactly for exported fields. *)
Record StructField : Type := mkStructField {
  Name : string;
  PkgPath : string;
  Tag : StructTag
}.

Definition IsExported (t : StructField) : bool := String.eqb (PkgPath t) "".

Section Extract.

(** The type-erased field values ([interface{}]). *)
Variable V : Type.

(** [reflect.ValueOf(v)] for the argument [v] of [StructToKVs]. A struct
    value carries its fields in declaration order, each with its type-level
    descriptor; [VPointer VInvalid] is a nil pointer, whose [Elem] is the
    zero [Value]. *)
Inductive Value : Type :=
| VInvalid
| VStruct (fields : list (StructField * V))
| VPointer (elem : Value)
| VOther.

(** [reflect.Indirect]: one pointer level is unwrapped. *)
Definition reflect_Indirect (rv : Value) : Value :=
  match rv with
  | VPointer e => e
  | _ => rv
  end.

(** [rv.Field(i).Interface()]: panics on a field that is not exported. *)
Definition Field_Interface (f : StructField * V) : outcome V :=
  if IsExported (fst f) then Returns (snd f) else Panics UnexportedField.

(** [p[0]] guarded by [len(p) > 0]. *)
Definition first_piece (p : list string) : option string :=
  match p with
  | p0 :: _ => Some p0
  | [] => None
  end.

Definition tag_name (t : StructField) (key : string) : option string :=
  let n := Tag_Get (Tag t) key in
  if negb (String.eqb n "") then first_piece (strings_Split n ",") else None.

Definition getName (t : StructField) : string :=
  match Name t with
  | EmptyString => ""
  | String c _ =>
    if unicode_IsLower (rune c) then ""
    else
      match tag_name t "sql" with
      | Some p0 => p0
      | None =>
        match tag_name t "json" with
        | Some p0 => p0
        | None => Name t
        end
      end
  end.

(** The loop of [StructToKVs] over the fields [i = 0 .. NumField-1], with
    the slices built so far. *)
Fixpoint StructToKVs_loop (fs : list (StructField * V))
         (keys : list string) (values : list V)
  : outcome (list string * list V) :=
  match fs with
  | [] => Returns (keys, values)
  | f :: rest =>
    let name := getName (fst f) in
    if String.eqb name "" then StructToKVs_loop rest keys values
    else
      let keys := keys ++ [name] in
      match Field_Interface f with
      | Panics p => Panics p
      | Returns x => StructToKVs_loop rest keys (values ++ [x])
      end
  end.

(** [rv.Kind() != reflect.Struct] panics; otherwise the loop runs over all
    [rv.NumField()] fields, starting from two empty slices. *)
Definition StructToKVs (v : Value) : outcome (list string * list V) :=
  let rv := reflect_Indirect v in
  match rv with
  | VStruct fields => StructToKVs_loop fields [] []
  | _ => Panics NotAStruct
  end.

End Extract.

Arguments VInvalid {V}.
Arguments VStruct {V} fields.
Arguments VPointer {V} elem.
Arguments VOther {V}.
Arguments reflect_Indirect {V} rv.
Arguments Field_Interface {V} f.
Arguments StructToKVs_loop {V} fs keys values.
Arguments StructToKVs {V} v.

(** ** The query builder *)

(** [type Syntax uint8], with [PSQL = iota] and [MySQL] the next constant. *)
Definition Syntax : Type := Z.
Definition PSQL : Syntax := 0.
Definition MySQL : Syntax := 1.

(** [type Query struct { sb strings.Builder; Syntax }]. The builder is
    represented by the bytes written so far; its capacity, which only
    [Grow] and [Cap] touch and which the runtime chooses, is not part of the
    state. *)
Record Query : Type := mkQuery {
  sb : string;
  syntax : Syntax
}.

(** A [*Query] is an address in the store of builders; an address that is
    not allocated plays the role of [nil]. *)
Definition loc : Type := positive.

(** [strconv.Itoa]. *)
Definition strconv_Itoa (z : Z) : string := NilZero.string_of_int (Z.to_int z).

(** The external collaborators ([database/sql], the driver and
    [pq.CopyIn]), which the package only sequences: the types of bound
    values ([interface{}]), handles, contexts and non-nil [error] values,
    and what each call answers. [Row_Scan] is [Scan] with one [*string]
    destination: what it stored there, if anything, and its error. *)
Class Collaborators : Type := {
  Any : Type;
  DB : Type;
  Tx : Type;
  Stmt : Type;
  Ctx : Type;
  Row : Type;
  Err : Type;
  DB_QueryRowContext : DB -> Ctx -> string -> list Any -> Row;
  Tx_QueryRowContext : Tx -> Ctx -> string -> list Any -> Row;
  Row_Scan : Row -> option string * option Err;
  Stmt_ExecContext : Stmt -> Ctx -> list Any -> option Err;
  DB_Begin : DB -> Tx + Err;
  Tx_PrepareContext : Tx -> Ctx -> string -> Stmt + Err;
  Stmt_Exec : Stmt -> option Err;
  Stmt_Close : Stmt -> option Err;
  Tx_Rollback : Tx -> option Err;
  Tx_Commit : Tx -> option Err;
  pq_CopyIn : string -> list string -> string
}.

Section Database.

Context {env : Collaborators}.

(** A Go [error]: [None] is [nil]. *)
Definition error : Type := option Err.

(** The calls made on the collaborators, in the order they are made. *)
Inductive event : Type :=
| EvDBQueryRow (t : DB) (ctx : Ctx) (query : string) (args : list Any)
| EvTxQueryRow (t : Tx) (ctx : Ctx) (query : string) (args : list Any)
| EvScan (ndest : nat)
| EvExecContext (t : Stmt) (ctx : Ctx) (args : list Any)
| EvBegin (db : DB)
| EvPrepareContext (tx : Tx) (ctx : Ctx) (query : string)
| EvCallback (st : Stmt)
| EvExec (st : Stmt)
| EvClose (st : Stmt)
| EvRollback (tx : Tx)
| EvCommit (tx : Tx).

(** The mutable state: the store of builders and the calls made so far. *)
Record world : Type := mkWorld {
  heap : gmap loc Query;
  trace : list event
}.

(** A computation either returns or panics, in both cases leaving a state
    behind (a panic can be recovered by a caller). *)
Inductive result (A : Type) : Type :=
| Ok (a : A) (w : world)
| Panic (p : panic) (w : world).
Arguments Ok {A} a w.
Arguments Panic {A} p w.

Definition M (A : Type) : Type := world -> result A.

Definition ret {A} (a : A) : M A := fun w => Ok a w.

Definition bind {A B} (m : M A) (k : A -> M B) : M B :=
  fun w => match m w with
           | Ok a w' => k a w'
           | Panic p w' => Panic p w'
           end.

Definition raise {A} (p : panic) : M A := fun w => Panic p w.

Definition emit (e : event) : M unit :=
  fun w => Ok tt {| heap := heap w; trace := trace w ++ [e] |}.

Notation "x <- m ;; k" := (bind m (fun x => k))
  (at level 100, m at next level, right associativity).
Notation "m ;;; k" := (bind m (fun _ => k))
  (at level 100, right associativity).

(** Reading through a [*Query]. *)
Definition deref (q : loc) : M Query :=
  fun w => match heap w !! q with
           | Some x => Ok x w
           | None => Panic NilDereference w
           end.

Definition store (q : loc) (x : Query) : M unit :=
  fun w => Ok tt {| heap := <[q := x]> (heap w); trace := trace w |}.

(** [q.sb.WriteString(s)], [q.sb.WriteByte(c)], [q.sb.Grow(n)],
    [q.sb.Cap()]. [Grow] changes the capacity only; [Cap] is at least the
    length, which is what the model returns: [Grow] depends on the sign of
    its argument alone. *)
Definition sb_WriteString (q : loc) (s : string) : M unit :=
  x <- deref q ;;
  store q {| sb := sb x +:+ s; syntax := syntax x |}.

Definition sb_WriteByte (q : loc) (c : ascii) : M unit :=
  sb_WriteString q (String c EmptyString).

Definition sb_Grow (q : loc) (n : Z) : M unit :=
  x <- deref q ;;
  if n <? 0 then raise NegativeGrow else ret tt.

Definition sb_Cap (q : loc) : M Z :=
  x <- deref q ;;
  ret (Z.of_nat (String.length (sb x))).

(** [func NewQuery(syn Syntax) *Query]: a fresh address holding an empty
    builder. *)
Definition NewQuery (syn : Syntax) : M loc :=
  fun w =>
    let l := fresh (dom (heap w)) in
    Ok l {| heap := <[l := {| sb := ""; syntax := syn |}]> (heap w);
            trace := trace w |}.

(** [func (q *Query) String() string]. *)
Definition Query_String (q : loc) : M string :=
  x <- deref q ;;
  ret (sb x).

(** [for i, k := range keys { if i > 0 { WriteByte(',') }; WriteString(k) }],
    from index [i] on. *)
Fixpoint write_keys (q : loc) (i : Z) (keys : list string) : M unit :=
  match keys with
  | [] => ret tt
  | k :: rest =>
    (if 0 <? i then sb_WriteByte q "," else ret tt) ;;;
    sb_WriteString q k ;;;
    write_keys q (i + 1) rest
  end.

(** [for i := 0; i < len(keys); i++ { ... }], from index [i] on, with
    [n = len(keys) - i] iterations left. *)
Fixpoint write_placeholders (q : loc) (i : Z) (n : nat) : M unit :=
  match n with
  | O => ret tt
  | S n' =>
    (if 0 <? i then sb_WriteByte q "," else ret tt) ;;;
    x <- deref q ;;
    (if syntax x =? 0
     then sb_WriteString q ("$" +:+ strconv_Itoa (i + 1))
     else sb_WriteByte q "?") ;;;
    write_placeholders q (i + 1) n'
  end.

(** [func (q *Query) InsertInto(tbl string, keys ...string) *Query]. *)
Definition InsertInto (q : loc) (tbl : string) (keys : list string) : M loc :=
  match keys with
  | [] => raise NeedKey
  | _ :: _ =>
    sb_Grow q 512 ;;;
    sb_WriteString q "INSERT INTO " ;;;
    sb_WriteString q tbl ;;;
    sb_WriteString q " (" ;;;
    write_keys q 0 keys ;;;
    sb_WriteString q ") VALUES (" ;;;
    write_placeholders q 0 (length keys) ;;;
    sb_WriteByte q ")" ;;;
    x <- deref q ;;
    (if syntax x =? 0 then sb_WriteString q " RETURNING id" else ret tt) ;;;
    ret q
  end.

(** [func (q *Query) Copy() *Query]. *)
Definition Copy (q : loc) : M loc :=
  x <- deref q ;;
  nq <- NewQuery (syntax x) ;;
  c <- sb_Cap q ;;
  sb_Grow nq c ;;;
  s <- Query_String q ;;
  sb_WriteString nq s ;;;
  ret nq.

(** The dynamic type of the [ins] argument of [ExecInsert]. *)
Inductive target : Type :=
| TDB (t : DB)
| TTx (t : Tx)
| TStmt (t : Stmt)
| TOther.

(** [Scan(&id)] on a row, [id] being the zero string before the call. *)
Definition scan_id (row : Row) : M (string * error) :=
  emit (EvScan 1) ;;;
  let '(written, err) := Row_Scan row in
  ret (match written with Some s => s | None => "" end, err).

(** [func (q *Query) ExecInsert(ins interface{}, ctx context.Context,
    values ...interface{}) (id string, err error)]. *)
Definition ExecInsert (q : loc) (ins : target) (ctx : Ctx)
           (values : list Any) : M (string * error) :=
  match ins with
  | TDB t =>
    text <- Query_String q ;;
    emit (EvDBQueryRow t ctx text values) ;;;
    scan_id (DB_QueryRowContext t ctx text values)
  | TTx t =>
    text <- Query_String q ;;
    emit (EvTxQueryRow t ctx text values) ;;;
    scan_id (Tx_QueryRowContext t ctx text values)
  | TStmt t =>
    emit (EvExecContext t ctx values) ;;;
    ret ("", Stmt_ExecContext t ctx values)
  | TOther => raise InvalidType
  end.

(** The deferred function of [WrapCopyIn]; [st] and [err] are the variables
    it closes over, read when it runs. The results of [Close] and
    [Rollback] are dropped. *)
Definition WrapCopyIn_deferred (tx : Tx) (st : option Stmt) (err : error)
  : M error :=
  (match st with
   | Some s => emit (EvClose s) ;;; let _ := Stmt_Close s in ret tt
   | None => ret tt
   end) ;;;
  match err with
  | Some _ => emit (EvRollback tx) ;;; let _ := Tx_Rollback tx in ret err
  | None => emit (EvCommit tx) ;;; ret (Tx_Commit tx)
  end.

(** [func WrapCopyIn(ctx, db, table, fields, fn) (err error)]. The callback
    either returns an error value or panics; a panic unwinds through the
    deferred function, which then still sees [err == nil]. *)
Definition WrapCopyIn (ctx : Ctx) (db : DB) (table : string)
           (fields : list string) (fn : Stmt -> outcome error) : M error :=
  emit (EvBegin db) ;;;
  match DB_Begin db with
  | inr e => ret (Some e)
  | inl tx =>
    let query := pq_CopyIn table fields in
    emit (EvPrepareContext tx ctx query) ;;;
    match Tx_PrepareContext tx ctx query with
    | inr e => WrapCopyIn_deferred tx None (Some e)
    | inl st =>
      emit (EvCallback st) ;;;
      match fn st with
      | Panics p => WrapCopyIn_deferred tx (Some st) None ;;; raise p
      | Returns (Some e) => WrapCopyIn_deferred tx (Some st) (Some e)
      | Returns None =>
        emit (EvExec st) ;;;
        WrapCopyIn_deferred tx (Some st) (Stmt_Exec st)
      end
    end
  end.

End Database.

Arguments Ok {env A} a w.
Arguments Panic {env A} p w.

(** ** Reference definitions: what the operations are meant to compute *)

(** The substring of [s] before its first occurrence of [sep]; all of [s]
    when [sep] does not occur. *)
Fixpoint before_sep (s : string) (sep : ascii) : string :=
  match s with
  | EmptyString => EmptyString
  | String c rest =>
    if Ascii.eqb c sep then EmptyString else String c (before_sep rest sep)
  end.

(** The precedence chain for column names: [sql] tag, then [json] tag, then
    the declared name. *)
Definition precedence_name (t : StructField) : string :=
  if negb (String.eqb (Tag_Get (Tag t) "sql") "")
  then before_sep (Tag_Get (Tag t) "sql") ","
  else if negb (String.eqb (Tag_Get (Tag t) "json") "")
       then before_sep (Tag_Get (Tag t) "json") ","
       else Name t.

(** The fields that pass the guard [name == ""] of the extraction loop, in
    declaration order. *)
Definition extracted {V : Type} (fs : list (StructField * V))
  : list (StructField * V) :=
  List.filter (fun f => negb (String.eqb (getName (fst f)) "")) fs.

(** The placeholders of an [n]-column statement. *)
Definition placeholders (syn : Syntax) (n : nat) : list string :=
  if syn =? PSQL
  then List.map (fun i => "$" +:+ strconv_Itoa (Z.of_nat i)) (seq 1 n)
  else repeat "?" n.

(** The statement text for a table and its columns. *)
Definition insert_text (syn : Syntax) (tbl : string) (keys : list string)
  : string :=
  "INSERT INTO " +:+ tbl +:+ " (" +:+ String.concat "," keys
  +:+ ") VALUES (" +:+ String.concat "," (placeholders syn (length keys))
  +:+ ")" +:+ (if syn =? PSQL then " RETURNING id" else "").

(** Every piece preceded by a comma: the text a loop writes once it is
    past its first iteration. *)
Definition comma_all (ls : list string) : string :=
  String.concat "" (List.map (fun k => "," +:+ k) ls).

(** The placeholders numbered from [a] on. *)
Definition placeholders_from (syn : Syntax) (a n : nat) : list string :=
  if syn =? PSQL
  then List.map (fun i => "$" +:+ strconv_Itoa (Z.of_nat i)) (seq a n)
  else repeat "?" n.

(** The state in which the builder at [q] holds the text [t] under the
    dialect [syn], everything else being as in [w]. *)
Definition set_text `{Collaborators} (w : world) (q : loc) (syn : Syntax)
           (t : string) : world :=
  {| heap := <[q := {| sb := t; syntax := syn |}]> (heap w);
     trace := trace w |}.

(** The state after the calls [evs] have been made from [w]. *)
Definition after `{Collaborators} (w : world) (evs : list event) : world :=
  {| heap := heap w; trace := trace w ++ evs |}.

(** The state a computation leaves behind, whether it returned or
    panicked. *)
Definition state_of `{Collaborators} {A : Type} (r : result A) : world :=
  match r with
  | Ok _ w => w
  | Panic _ w => w
  end.

Section BulkLoadReference.

Context {env : Collaborators}.

Definition is_commit (e : event) : bool :=
  match e with EvCommit _ => true | _ => false end.

Definition is_rollback (e : event) : bool :=
  match e with EvRollback _ => true | _ => false end.

Definition is_close (e : event) : bool :=
  match e with EvClose _ => true | _ => false end.



End BulkLoadReference.

Section BulkLoadCalls.

Context {env : Collaborators}.

Definition is_callback (e : event) : bool :=
  match e with EvCallback _ => true | _ => false end.

Definition is_exec (e : event) : bool :=
  match e with EvExec _ => true | _ => false end.

(** The calls that resolve a transaction. *)
Definition is_resolution (e : event) : bool := is_commit e || is_rollback e.

End BulkLoadCalls.

(** ** Concrete inputs *)

Module Examples.

(** [struct { ID int `sql:"id,pk"`; Name string `json:"name,omitempty"`;
    Age int; secret int }] with the values 7, 8, 9, 10. *)
Definition user : list (StructField * Z) :=
  [ (mkStructField "ID" "" [("sql", "id,pk")], 7);
    (mkStructField "Name" "" [("json", "name,omitempty")], 8);
    (mkStructField "Age" "" [], 9);
    (mkStructField "secret" "main" [], 10) ].

(** [struct { _ int; ID int }]: a blank padding field before an exported
    one. *)
Definition padded : list (StructField * Z) :=
  [ (mkStructField "_" "main" [], 0);
    (mkStructField "ID" "" [], 1) ].

(** [struct { A int `sql:",omitempty"`; B int }]: the tag of [A] names no
    column. *)
Definition comma_tagged : list (StructField * Z) :=
  [ (mkStructField "A" "" [("sql", ",omitempty")], 1);
    (mkStructField "B" "" [], 2) ].

(** A database whose collaborators all succeed: handles are numbers, a
    scanned row yields the identifier ["42"]. *)
Definition healthy : Collaborators := {|
  Any := Z; DB := nat; Tx := nat; Stmt := nat; Ctx := unit;
  Row := option string * option string; Err := string;
  DB_QueryRowContext := fun _ _ _ _ => (Some "42", None);
  Tx_QueryRowContext := fun _ _ _ _ => (Some "42", None);
  Row_Scan := fun row => row;
  Stmt_ExecContext := fun _ _ _ => None;
  DB_Begin := fun db => inl (S db);
  Tx_PrepareContext := fun tx _ _ => inl (S tx);
  Stmt_Exec := fun _ => None;
  Stmt_Close := fun _ => None;
  Tx_Rollback := fun _ => Some "rollback failed";
  Tx_Commit := fun _ => None;
  pq_CopyIn := fun table fields =>
    "COPY " +:+ table +:+ " (" +:+ String.concat ", " fields +:+ ") FROM STDIN"
|}.

Definition db0 : @DB healthy := 0%nat.
Definition tx1 : @Tx healthy := 1%nat.
Definition ctx0 : @Ctx healthy := tt.
Definition five : list (@Any healthy) := [5].

(** A callback that rejects the rows. *)
Definition rejecting : @Stmt healthy -> outcome (@error healthy) :=
  fun _ => Returns (Some "row rejected").

(** The state with no builder allocated and no call made. *)
Definition empty_world : @world healthy :=
  {| heap := ∅; trace := [] |}.

(** A state with one builder, at address 1, holding a Postgres-style
    prefix. *)
Definition one_builder : @world healthy :=
  {| heap := {[ 1%positive := {| sb := "INSERT"; syntax := PSQL |} ]};
     trace := [] |}.

(** [struct { ID int; Name int }], without tags. *)
Definition plain : list (StructField * Z) :=
  [ (mkStructField "ID" "" [], 1);
    (mkStructField "Name" "" [], 2) ].

(** A state with one builder, at address 1, whose dialect is neither of
    the two named constants. *)
Definition odd_builder : @world healthy :=
  {| heap := {[ 1%positive := {| sb := ""; syntax := 7 |} ]};
     trace := [] |}.

(** A callback that panics. *)
Definition panicking : @Stmt healthy -> outcome (@error healthy) :=
  fun _ => Panics CallbackPanic.

Definition stmt2 : @Stmt healthy := 2%nat.

(** A database that refuses to open a transaction. *)
Definition refusing : Collaborators := {|
  Any := Z; DB := nat; Tx := nat; Stmt := nat; Ctx := unit;
  Row := option string * option string; Err := string;
  DB_QueryRowContext := fun _ _ _ _ => (None, Some "connection refused");
  Tx_QueryRowContext := fun _ _ _ _ => (None, Some "connection refused");
  Row_Scan := fun row => row;
  Stmt_ExecContext := fun _ _ _ => Some "connection refused";
  DB_Begin := fun _ => inr "connection refused";
  Tx_PrepareContext := fun _ _ _ => inr "connection refused";
  Stmt_Exec := fun _ => Some "connection refused";
  Stmt_Close := fun _ => None;
  Tx_Rollback := fun _ => None;
  Tx_Commit := fun _ => None;
  pq_CopyIn := fun table _ => table
|}.

Definition refusing_db : @DB refusing := 0%nat.
Definition refusing_ctx : @Ctx refusing := tt.
Definition refusing_fn : @Stmt refusing -> outcome (@error refusing) :=
  fun _ => Returns None.
Definition refusing_world : @world refusing :=
  {| heap := ∅; trace := [] |}.

End Examples.

(** ** Field extraction *)

Section ExtractFacts.

Context {V : Type}.
Implicit Types (t : StructField) (f : StructField * V)
         (fs : list (StructField * V)).

Lemma strings_Split_first s sep :
  first_piece (strings_Split s sep) = Some (before_sep s sep).
Proof.
  induction s as [|c rest IH]; simpl; [reflexivity|].
  destruct (Ascii.eqb c sep); [reflexivity|].
  destruct (strings_Split rest sep) as [|p ps]; simpl in *; [discriminate|].
  congruence.
Qed.

Lemma tag_name_spec t key :
  tag_name t key =
  if negb (String.eqb (Tag_Get (Tag t) key) "")
  then Some (before_sep (Tag_Get (Tag t) key) ",")
  else None.
Proof.
  unfold tag_name. destruct (negb _); [apply strings_Split_first | reflexivity].
Qed.

(** Past the visibility guard, [getName] is the precedence chain. *)
Lemma getName_visible t c rest :
  Name t = String c rest -> unicode_IsLower (rune c) = false ->
  getName t = precedence_name t.
Proof.
  intros HN HL. unfold getName, precedence_name. rewrite HN, HL.
  rewrite !tag_name_spec.
  destruct (negb (String.eqb (Tag_Get (Tag t) "sql") "")); [reflexivity|].
  destruct (negb (String.eqb (Tag_Get (Tag t) "json") "")); reflexivity.
Qed.

Lemma getName_nonempty_precedence t :
  getName t <> "" -> getName t = precedence_name t.
Proof.
  intros Hne. destruct (Name t) as [|c rest] eqn:HN.
  - unfold getName in Hne. rewrite HN in Hne. congruence.
  - destruct (unicode_IsLower (rune c)) eqn:HL.
    + unfold getName in Hne. rewrite HN, HL in Hne. congruence.
    + eapply getName_visible; eauto.
Qed.

(** The guard of the visibility check: an empty name or a first byte that
    [unicode.IsLower] accepts gives the skip marker. *)
Lemma getName_hidden t :
  (Name t = "" \/ exists c rest, Name t = String c rest /\
                                 unicode_IsLower (rune c) = true) ->
  getName t = "".
Proof.
  unfold getName. intros [-> | (c & rest & -> & ->)]; reflexivity.
Qed.

Lemma extracted_cons f fs :
  extracted (f :: fs) =
  if String.eqb (getName (fst f)) "" then extracted fs else f :: extracted fs.
Proof.
  unfold extracted. simpl. destruct (String.eqb _ _); reflexivity.
Qed.

Lemma extracted_app fs1 fs2 :
  extracted (fs1 ++ fs2) = extracted fs1 ++ extracted fs2.
Proof. unfold extracted. apply List.filter_app. Qed.

Lemma extracted_sublist fs : sublist (extracted fs) fs.
Proof.
  induction fs as [|f fs IH]; [constructor|].
  rewrite extracted_cons. destruct (String.eqb _ _); by constructor.
Qed.

Lemma elem_of_extracted f fs :
  f ∈ extracted fs <-> f ∈ fs /\ getName (fst f) <> "".
Proof.
  unfold extracted. rewrite !list_elem_of_In, List.filter_In.
  rewrite negb_true_iff, String.eqb_neq. reflexivity.
Qed.

(** The loop, in closed form: it returns the names and values of the
    extracted fields appended to the slices it started from, unless one of
    these fields is unexported. *)
Lemma StructToKVs_loop_closed fs keys values :
  StructToKVs_loop fs keys values =
  if forallb (fun f => IsExported (fst f)) (extracted fs)
  then Returns (keys ++ List.map (fun f => getName (fst f)) (extracted fs),
                values ++ List.map snd (extracted fs))
  else Panics UnexportedField.
Proof.
  revert keys values. induction fs as [|f fs IH]; intros keys values.
  - simpl. by rewrite !app_nil_r.
  - rewrite extracted_cons. simpl.
    destruct (String.eqb (getName (fst f)) ""); [apply IH|].
    unfold Field_Interface. simpl.
    destruct (IsExported (fst f)); simpl; [|reflexivity].
    rewrite IH. destruct (forallb _ _); [|reflexivity].
    by rewrite <- !app_assoc.
Qed.

Lemma StructToKVs_struct (v : Value V) keys values :
  StructToKVs v = Returns (keys, values) ->
  exists fs, reflect_Indirect v = VStruct fs.
Proof.
  unfold StructToKVs. destruct (reflect_Indirect v); try discriminate. eauto.
Qed.

End ExtractFacts.

Section ExtractClaims.

Context {V : Type}.
Implicit Types (f : StructField * V) (fs : list (StructField * V)).

Lemma StructToKVs_closed (v : Value V) fs :
  reflect_Indirect v = VStruct fs ->
  StructToKVs v =
  if forallb (fun f => IsExported (fst f)) (extracted fs)
  then Returns (List.map (fun f => getName (fst f)) (extracted fs),
                List.map snd (extracted fs))
  else Panics UnexportedField.
Proof.
  intros Hv. unfold StructToKVs. rewrite Hv.
  by rewrite StructToKVs_loop_closed.
Qed.

Lemma unexported_among fs :
  forallb (fun f => IsExported (fst f)) fs = false ->
  exists f, f ∈ fs /\ IsExported (fst f) = false.
Proof.
  induction fs as [|f fs IH]; simpl; [discriminate|].
  destruct (IsExported (fst f)) eqn:E; simpl.
  - intros H. destruct (IH H) as (g & Hg & Hx). exists g. split; [by right | done].
  - intros _. exists f. split; [by left | done].
Qed.

Lemma extracted_names_precedence fs :
  List.map (fun f => getName (fst f)) (extracted fs) =
  List.map (fun f => precedence_name (fst f)) (extracted fs).
Proof.
  apply List.map_ext_in. intros f Hf.
  apply list_elem_of_In, elem_of_extracted in Hf as [_ Hne].
  by apply getName_nonempty_precedence.
Qed.

(** C1. Every extracted field gets its column name from the precedence
    chain: the part of a non-empty [sql] tag before its first comma,
    otherwise the part of a non-empty [json] tag before its first comma,
    otherwise the declared name. For a struct (or pointer to struct) with
    fields [fs], each extracted field's name is [precedence_name], and the
    returned names are those of the extracted fields in order; the only way
    not to return is the panic of [Interface] on an extracted field that is
    unexported. *)
Theorem StructToKVs_names_precedence (v : Value V) fs :
  reflect_Indirect v = VStruct fs ->
  (forall f, f ∈ extracted fs -> getName (fst f) = precedence_name (fst f)) /\
  match StructToKVs v with
  | Returns (keys, _) =>
    keys = List.map (fun f => precedence_name (fst f)) (extracted fs)
  | Panics p =>
    p = UnexportedField /\
    exists f, f ∈ extracted fs /\ IsExported (fst f) = false
  end.
Proof.
  intros Hv. split.
  - intros f Hf. apply elem_of_extracted in Hf as [_ Hne].
    by apply getName_nonempty_precedence.
  - rewrite (StructToKVs_closed v fs Hv).
    destruct (forallb _ _) eqn:E.
    + apply extracted_names_precedence.
    + split; [reflexivity | by apply unexported_among].
Qed.

Lemma combine_map_both {A B C : Type} (g : A -> B) (h : A -> C) (l : list A) :
  combine (List.map g l) (List.map h l) = List.map (fun x => (g x, h x)) l.
Proof. induction l as [|x l IH]; simpl; [reflexivity | by rewrite IH]. Qed.

(** C3. The names and the values returned by extraction have the same
    length, and position by position they come from the same field: the
    pairs (name, value) are those of the extracted fields, which are the
    fields of the struct in declaration order with the skipped ones left
    out; a field whose name resolves to the skip marker is absent from
    both. Extraction returns unless an extracted field is unexported, in
    which case [Interface] panics. *)
Theorem StructToKVs_positional (v : Value V) fs :
  reflect_Indirect v = VStruct fs ->
  match StructToKVs v with
  | Returns (keys, values) =>
    length keys = length values /\
    combine keys values =
      List.map (fun f => (getName (fst f), snd f)) (extracted fs) /\
    sublist (extracted fs) fs /\
    (forall f, f ∈ fs -> getName (fst f) = "" -> f ∉ extracted fs)
  | Panics p =>
    p = UnexportedField /\
    exists f, f ∈ extracted fs /\ IsExported (fst f) = false
  end.
Proof.
  intros Hv. rewrite (StructToKVs_closed v fs Hv).
  destruct (forallb _ _) eqn:E.
  - split; [by rewrite !List.length_map|].
    split; [|split].
    + apply combine_map_both.
    + apply extracted_sublist.
    + intros f _ Hskip Hin. apply elem_of_extracted in Hin as [_ Hne]. done.
  - split; [reflexivity | by apply unexported_among].
Qed.

Lemma precedence_empty_getName (t : StructField) :
  precedence_name t = "" -> getName t = "".
Proof.
  intros Hp. destruct (String.eqb (getName t) "") eqn:E.
  - by apply String.eqb_eq.
  - apply String.eqb_neq in E.
    rewrite (getName_nonempty_precedence t E) in E. done.
Qed.

Lemma StructToKVs_skip fs1 f fs2 :
  getName (fst f) = "" ->
  StructToKVs (VStruct (fs1 ++ f :: fs2)) = StructToKVs (VStruct (fs1 ++ fs2)).
Proof.
  intros Hn.
  rewrite (StructToKVs_closed (VStruct (fs1 ++ f :: fs2)) _ eq_refl).
  rewrite (StructToKVs_closed (VStruct (fs1 ++ fs2)) _ eq_refl).
  rewrite !extracted_app, extracted_cons, Hn. reflexivity.
Qed.

Lemma StructToKVs_no_empty_key (v : Value V) keys values :
  StructToKVs v = Returns (keys, values) -> "" ∉ keys.
Proof.
  intros Hr. destruct (StructToKVs_struct v keys values Hr) as [fs Hv].
  rewrite (StructToKVs_closed v fs Hv) in Hr.
  destruct (forallb _ _); [|discriminate].
  injection Hr as <- _. intros Hin.
  apply list_elem_of_In, List.in_map_iff in Hin as (f & Hf & Hin).
  apply list_elem_of_In, elem_of_extracted in Hin as [_ Hne]. done.
Qed.

(** C6, amended. A field whose annotation resolves to the empty string after
    truncation at the first comma is skipped: the empty string is the skip
    marker of the loop, so extraction behaves exactly as if the field were
    not declared, and the empty string is never one of the returned
    names. *)
Theorem StructToKVs_empty_resolved_name_skipped fs1 f fs2 :
  precedence_name (fst f) = "" ->
  (StructToKVs (VStruct (fs1 ++ f :: fs2)) = StructToKVs (VStruct (fs1 ++ fs2))) /\
  (f ∉ extracted (fs1 ++ f :: fs2)) /\
  (forall keys values,
      StructToKVs (VStruct (fs1 ++ f :: fs2)) = Returns (keys, values) ->
      "" ∉ keys).
Proof.
  intros Hp. pose proof (precedence_empty_getName _ Hp) as Hn.
  split; [by apply StructToKVs_skip|]. split.
  - intros Hin. apply elem_of_extracted in Hin as [_ Hne]. done.
  - intros keys values. apply StructToKVs_no_empty_key.
Qed.

End ExtractClaims.

Lemma StructToKVs_names_precedence_witness :
  StructToKVs (VStruct Examples.user) = Returns (["id"; "name"; "Age"], [7; 8; 9]) /\
  match StructToKVs (VStruct Examples.user) with
  | Returns (keys, _) =>
    keys = List.map (fun f => precedence_name (fst f)) (extracted Examples.user)
  | Panics p =>
    p = UnexportedField /\
    exists f, f ∈ extracted Examples.user /\ IsExported (fst f) = false
  end.
Proof.
  split; [reflexivity|].
  exact (proj2 (StructToKVs_names_precedence
                  (VStruct Examples.user) Examples.user eq_refl)).
Defined.

Lemma StructToKVs_positional_witness :
  match StructToKVs (VStruct Examples.user) with
  | Returns (keys, values) =>
    length keys = length values /\
    combine keys values =
      List.map (fun f => (getName (fst f), snd f)) (extracted Examples.user) /\
    sublist (extracted Examples.user) Examples.user /\
    (forall f, f ∈ Examples.user -> getName (fst f) = "" ->
               f ∉ extracted Examples.user)
  | Panics p =>
    p = UnexportedField /\
    exists f, f ∈ extracted Examples.user /\ IsExported (fst f) = false
  end.
Proof.
  exact (StructToKVs_positional (VStruct Examples.user) Examples.user eq_refl).
Defined.

(** C6, as stated, fails: the exported field [A] of
    [struct { A int `sql:",omitempty"`; B int }] resolves to the empty
    name, and the output holds no entry for it. *)
Lemma StructToKVs_empty_name_counterexample :
  let a := mkStructField "A" "" [("sql", ",omitempty")] in
  Examples.comma_tagged = [(a, 1); (mkStructField "B" "" [], 2)] /\
  IsExported a = true /\
  precedence_name a = "" /\
  StructToKVs (VStruct Examples.comma_tagged) = Returns (["B"], [2]) /\
  ~ (exists keys values,
        StructToKVs (VStruct Examples.comma_tagged) = Returns (keys, values) /\
        "" ∈ keys).
Proof.
  repeat split.
  intros (keys & values & Hr & Hin).
  vm_compute in Hr. injection Hr as <- <-.
  apply list_elem_of_In in Hin. simpl in Hin. intuition discriminate.
Qed.

Lemma StructToKVs_empty_resolved_name_skipped_witness :
  precedence_name (mkStructField "A" "" [("sql", ",omitempty")]) = "" /\
  StructToKVs (VStruct Examples.comma_tagged) =
  StructToKVs (VStruct [(mkStructField "B" "" [], 2)]).
Proof.
  split; [reflexivity|].
  exact (proj1 (StructToKVs_empty_resolved_name_skipped
                  [] (mkStructField "A" "" [("sql", ",omitempty")], 1)
                  [(mkStructField "B" "" [], 2)] eq_refl)).
Defined.

(** C7, at the failing input [struct { _ int; ID int }]: the blank field's
    name does not start with an uppercase letter, yet [getName] keeps it
    (its first byte is not a lowercase letter either), and extraction
    panics in [Interface] instead of skipping the field; without the field
    the struct is extracted. *)
Theorem StructToKVs_blank_field_not_skipped :
  getName (mkStructField "_" "main" []) = "_" /\
  StructToKVs (VStruct Examples.padded) = Panics UnexportedField /\
  StructToKVs (VStruct [(mkStructField "ID" "" [], 1)]) = Returns (["ID"], [1]).
Proof. repeat split. Qed.

(** ** The query builder *)

Lemma append_cons (x : ascii) (a b : string) :
  String x a +:+ b = String x (a +:+ b).
Proof. reflexivity. Qed.

Lemma append_nil_l (a : string) : "" +:+ a = a.
Proof. reflexivity. Qed.

Lemma append_assoc (a b c : string) : (a +:+ b) +:+ c = a +:+ (b +:+ c).
Proof.
  induction a as [|x a IH]; [reflexivity|].
  by rewrite !append_cons, IH.
Qed.

Lemma append_nil_r (a : string) : a +:+ "" = a.
Proof.
  induction a as [|x a IH]; [reflexivity|].
  by rewrite append_cons, IH.
Qed.

Lemma concat_comma (k : string) (rest : list string) :
  String.concat "," (k :: rest) = k +:+ comma_all rest.
Proof.
  revert k. induction rest as [|k' rest IH]; intros k.
  - simpl. by rewrite append_nil_r.
  - change (String.concat "," (k :: k' :: rest))
      with (k +:+ "," +:+ String.concat "," (k' :: rest)).
    rewrite IH. unfold comma_all. simpl.
    destruct rest; simpl; [by rewrite !append_nil_r | reflexivity].
Qed.

Lemma comma_all_cons (k : string) (rest : list string) :
  comma_all (k :: rest) = "," +:+ k +:+ comma_all rest.
Proof.
  unfold comma_all. simpl. destruct rest; simpl; [|reflexivity].
  by rewrite append_nil_r.
Qed.

Section BuilderFacts.

Context {env : Collaborators}.

Lemma set_text_id (w : world) q x :
  heap w !! q = Some x -> set_text w q (syntax x) (sb x) = w.
Proof.
  intros Hq. destruct w as [h tr], x as [t syn]. unfold set_text. simpl in *.
  by rewrite insert_id.
Qed.

Lemma set_text_set_text (w : world) q syn t syn' t' :
  set_text (set_text w q syn t) q syn' t' = set_text w q syn' t'.
Proof. unfold set_text. simpl. by rewrite insert_insert_eq. Qed.

Lemma deref_set_text (w : world) q syn t :
  deref q (set_text w q syn t) =
  Ok {| sb := t; syntax := syn |} (set_text w q syn t).
Proof. unfold deref, set_text. simpl. by rewrite lookup_insert_eq. Qed.

Lemma WriteString_set_text (w : world) q syn t s :
  sb_WriteString q s (set_text w q syn t) = Ok tt (set_text w q syn (t +:+ s)).
Proof.
  unfold sb_WriteString, bind. rewrite deref_set_text. unfold store. simpl.
  by rewrite insert_insert_eq.
Qed.

Lemma WriteByte_set_text (w : world) q syn t c :
  sb_WriteByte q c (set_text w q syn t) =
  Ok tt (set_text w q syn (t +:+ String c "")).
Proof. apply WriteString_set_text. Qed.

Lemma write_keys_later (w : world) q syn keys : forall i t,
  0 < i ->
  write_keys q i keys (set_text w q syn t) =
  Ok tt (set_text w q syn (t +:+ comma_all keys)).
Proof.
  induction keys as [|k rest IH]; intros i t Hi.
  - simpl. unfold ret. by rewrite append_nil_r.
  - simpl. unfold bind.
    replace (0 <? i) with true by (symmetry; by apply Z.ltb_lt).
    rewrite WriteByte_set_text, WriteString_set_text, IH by lia.
    by rewrite comma_all_cons, !append_assoc.
Qed.

Lemma write_keys_first (w : world) q syn k rest t :
  write_keys q 0 (k :: rest) (set_text w q syn t) =
  Ok tt (set_text w q syn (t +:+ String.concat "," (k :: rest))).
Proof.
  cbn [write_keys]. unfold bind.
  change (0 <? 0) with false. cbv iota. unfold ret at 1.
  rewrite WriteString_set_text, write_keys_later by lia.
  by rewrite concat_comma, append_assoc.
Qed.

Lemma placeholders_from_S syn a n :
  placeholders_from syn a (S n) =
  (if syn =? 0 then "$" +:+ strconv_Itoa (Z.of_nat a) else "?")
    :: placeholders_from syn (S a) n.
Proof.
  unfold placeholders_from, PSQL. destruct (syn =? 0); reflexivity.
Qed.

Lemma write_placeholder_set_text (w : world) q syn t (a : nat) :
  (if syn =? 0
   then sb_WriteString q ("$" +:+ strconv_Itoa (Z.of_nat a))
   else sb_WriteByte q "?") (set_text w q syn t) =
  Ok tt (set_text w q syn
           (t +:+ (if syn =? 0 then "$" +:+ strconv_Itoa (Z.of_nat a) else "?"))).
Proof.
  destruct (syn =? 0).
  - apply WriteString_set_text.
  - apply WriteByte_set_text.
Qed.

Lemma write_placeholders_later (w : world) q syn n : forall (a : nat) t,
  (0 < a)%nat ->
  write_placeholders q (Z.of_nat a) n (set_text w q syn t) =
  Ok tt (set_text w q syn (t +:+ comma_all (placeholders_from syn (S a) n))).
Proof.
  induction n as [|n IH]; intros a t Ha.
  - unfold placeholders_from. destruct (syn =? PSQL); simpl;
      unfold ret; by rewrite append_nil_r.
  - cbn [write_placeholders]. unfold bind at 1.
    replace (0 <? Z.of_nat a) with true by (symmetry; apply Z.ltb_lt; lia).
    rewrite WriteByte_set_text. unfold bind at 1.
    rewrite deref_set_text. cbn [syntax]. unfold bind at 1.
    replace (Z.of_nat a + 1) with (Z.of_nat (S a)) by lia.
    rewrite write_placeholder_set_text, IH by lia.
    by rewrite placeholders_from_S, comma_all_cons, !append_assoc.
Qed.

Lemma write_placeholders_first (w : world) q syn n t :
  write_placeholders q 0 (S n) (set_text w q syn t) =
  Ok tt (set_text w q syn
           (t +:+ String.concat "," (placeholders syn (S n)))).
Proof.
  cbn [write_placeholders]. unfold bind at 1.
  change (0 <? 0) with false. cbv iota. unfold ret at 1.
  unfold bind at 1. rewrite deref_set_text. cbn [syntax]. unfold bind at 1.
  change (0 + 1) with (Z.of_nat 1).
  rewrite write_placeholder_set_text, write_placeholders_later by lia.
  change (placeholders syn (S n)) with (placeholders_from syn 1 (S n)).
  by rewrite placeholders_from_S, concat_comma, !append_assoc.
Qed.

(** [InsertInto] on a live builder appends the statement text and returns
    the builder it was called on. *)
Lemma InsertInto_set_text (w : world) q syn t tbl k rest :
  InsertInto q tbl (k :: rest) (set_text w q syn t) =
  Ok q (set_text w q syn (t +:+ insert_text syn tbl (k :: rest))).
Proof.
  unfold InsertInto.
  unfold bind at 1. unfold sb_Grow, bind at 1. rewrite deref_set_text.
  change (512 <? 0) with false. cbv iota. unfold ret at 1.
  unfold bind at 1. rewrite WriteString_set_text.
  unfold bind at 1. rewrite WriteString_set_text.
  unfold bind at 1. rewrite WriteString_set_text.
  unfold bind at 1. rewrite write_keys_first.
  unfold bind at 1. rewrite WriteString_set_text.
  unfold bind at 1. cbn [length]. rewrite write_placeholders_first.
  unfold bind at 1. rewrite WriteByte_set_text.
  unfold bind at 1. rewrite deref_set_text. cbn [syntax].
  unfold insert_text, PSQL. cbn [length].
  destruct (syn =? 0).
  - unfold bind. rewrite WriteString_set_text. unfold ret.
    by rewrite !append_assoc.
  - unfold bind, ret. by rewrite !append_assoc, append_nil_r.
Qed.

Lemma InsertInto_appends (w : world) q x tbl keys :
  heap w !! q = Some x -> keys <> [] ->
  InsertInto q tbl keys w =
  Ok q (set_text w q (syntax x) (sb x +:+ insert_text (syntax x) tbl keys)).
Proof.
  intros Hq Hne. destruct keys as [|k rest]; [done|].
  rewrite <- (set_text_id w q x Hq) at 1.
  by rewrite InsertInto_set_text.
Qed.

Lemma NewQuery_fresh (w : world) syn :
  exists q, NewQuery syn w = Ok q (set_text w q syn "") /\ heap w !! q = None.
Proof.
  exists (fresh (dom (heap w))). split; [reflexivity|].
  apply not_elem_of_dom, is_fresh.
Qed.

Lemma set_text_lookup (w : world) q syn t :
  heap (set_text w q syn t) !! q = Some {| sb := t; syntax := syn |}.
Proof. unfold set_text. simpl. by rewrite lookup_insert_eq. Qed.

Lemma set_text_lookup_ne (w : world) q q' syn t :
  q <> q' -> heap (set_text w q syn t) !! q' = heap w !! q'.
Proof. intros Hne. unfold set_text. simpl. by rewrite lookup_insert_ne. Qed.

End BuilderFacts.

Section BuilderClaims.

Context {env : Collaborators}.

Lemma InsertInto_frame (w : world) l l' tbl keys :
  l <> l' ->
  heap (state_of (InsertInto l tbl keys w)) !! l' = heap w !! l'.
Proof.
  intros Hne. destruct keys as [|k rest]; [reflexivity|].
  destruct (heap w !! l) as [x|] eqn:Hl.
  - rewrite (InsertInto_appends w l x tbl (k :: rest) Hl) by done.
    by apply set_text_lookup_ne.
  - unfold InsertInto, bind at 1, sb_Grow, bind at 1, deref.
    by rewrite Hl.
Qed.

Lemma WriteString_frame (w : world) l l' s :
  l <> l' ->
  heap (state_of (sb_WriteString l s w)) !! l' = heap w !! l'.
Proof.
  intros Hne. unfold sb_WriteString, bind, deref.
  destruct (heap w !! l) as [x|]; [|reflexivity].
  simpl. by rewrite lookup_insert_ne.
Qed.

Lemma WriteString_at (w : world) l x s :
  heap w !! l = Some x ->
  sb_WriteString l s w = Ok tt (set_text w l (syntax x) (sb x +:+ s)).
Proof.
  intros Hl. rewrite <- (set_text_id w l x Hl) at 1.
  by rewrite WriteString_set_text.
Qed.

(** C2. On a fresh builder and a non-empty column list, [InsertInto]
    returns that builder holding exactly
    [INSERT INTO <t> (<col1>,...,<colN>) VALUES (...)]: with the
    placeholders [$1],...,[$N] and the suffix [ RETURNING id] under the
    Postgres-style dialect, with N times [?] and no suffix under the generic
    dialect; for the table [t] and the columns [a], [b] the two texts are
    [INSERT INTO t (a,b) VALUES ($1,$2) RETURNING id] and
    [INSERT INTO t (a,b) VALUES (?,?)]. On a builder that already holds
    text, the statement is appended to it. *)
Theorem InsertInto_statement_text (w : world) syn tbl keys :
  keys <> [] ->
  (exists q w',
      bind (NewQuery syn) (fun q => InsertInto q tbl keys) w = Ok q w' /\
      heap w !! q = None /\
      Query_String q w' = Ok (insert_text syn tbl keys) w' /\
      heap w' !! q = Some {| sb := insert_text syn tbl keys; syntax := syn |}) /\
  (forall q x, heap w !! q = Some x ->
      exists w', InsertInto q tbl keys w = Ok q w' /\
        heap w' !! q =
        Some {| sb := sb x +:+ insert_text (syntax x) tbl keys;
                syntax := syntax x |}) /\
  insert_text PSQL tbl keys =
    "INSERT INTO " +:+ tbl +:+ " (" +:+ String.concat "," keys
    +:+ ") VALUES ("
    +:+ String.concat ","
          (List.map (fun i => "$" +:+ strconv_Itoa (Z.of_nat i))
                    (seq 1 (length keys)))
    +:+ ") RETURNING id" /\
  insert_text MySQL tbl keys =
    "INSERT INTO " +:+ tbl +:+ " (" +:+ String.concat "," keys
    +:+ ") VALUES (" +:+ String.concat "," (repeat "?" (length keys))
    +:+ ")" /\
  insert_text PSQL "t" ["a"; "b"] =
    "INSERT INTO t (a,b) VALUES ($1,$2) RETURNING id" /\
  insert_text MySQL "t" ["a"; "b"] = "INSERT INTO t (a,b) VALUES (?,?)".
Proof.
  intros Hne. split; [|split; [|split; [|split; [|split]]]].
  - destruct (NewQuery_fresh w syn) as (q & Hnew & Hfresh).
    exists q, (set_text w q syn (insert_text syn tbl keys)).
    unfold bind at 1. rewrite Hnew.
    destruct keys as [|k rest]; [done|].
    rewrite InsertInto_set_text, append_nil_l.
    split; [reflexivity|]. split; [done|]. split.
    + unfold Query_String, bind. by rewrite deref_set_text.
    + apply set_text_lookup.
  - intros q x Hq. eexists. split; [by apply InsertInto_appends|].
    apply set_text_lookup.
  - reflexivity.
  - reflexivity.
  - reflexivity.
  - reflexivity.
Qed.

(** C8. With an empty column list [InsertInto] panics before it writes
    anything: for every builder address, table name and state the result is
    the panic, never a returned builder, and the state is the one it was
    called in; this holds for a fresh builder of either dialect, whose text
    stays empty. *)
Theorem InsertInto_no_keys_panics (w : world) q tbl :
  InsertInto q tbl [] w = Panic NeedKey w /\
  (forall syn, exists q' w',
      NewQuery syn w = Ok q' w' /\
      InsertInto q' tbl [] w' = Panic NeedKey w' /\
      Query_String q' w' = Ok "" w').
Proof.
  split; [reflexivity|]. intros syn.
  destruct (NewQuery_fresh w syn) as (q' & Hnew & _).
  exists q', (set_text w q' syn ""). split; [done|]. split; [reflexivity|].
  unfold Query_String, bind. by rewrite deref_set_text.
Qed.

(** C9. [Copy] of a live builder returns a new address, different from the
    source, holding the source's dialect and its text at the time of the
    copy, and leaves the source as it was. From then on the two are
    independent: in any later state an append ([WriteString] or
    [InsertInto]) to one of them leaves what the other holds unchanged, and
    right after the copy such an append does extend the builder it is
    applied to. *)
Theorem Copy_independent (w : world) q x :
  heap w !! q = Some x ->
  exists nq w',
    Copy q w = Ok nq w' /\
    nq <> q /\
    heap w !! nq = None /\
    heap w' !! nq = Some {| sb := sb x; syntax := syntax x |} /\
    heap w' !! q = Some x /\
    (forall (w0 : world) s,
        heap (state_of (sb_WriteString nq s w0)) !! q = heap w0 !! q /\
        heap (state_of (sb_WriteString q s w0)) !! nq = heap w0 !! nq) /\
    (forall (w0 : world) tbl keys,
        heap (state_of (InsertInto nq tbl keys w0)) !! q = heap w0 !! q /\
        heap (state_of (InsertInto q tbl keys w0)) !! nq = heap w0 !! nq) /\
    (forall s, exists w1,
        sb_WriteString nq s w' = Ok tt w1 /\
        heap w1 !! nq = Some {| sb := sb x +:+ s; syntax := syntax x |} /\
        heap w1 !! q = Some x) /\
    (forall s, exists w1,
        sb_WriteString q s w' = Ok tt w1 /\
        heap w1 !! q = Some {| sb := sb x +:+ s; syntax := syntax x |} /\
        heap w1 !! nq = Some {| sb := sb x; syntax := syntax x |}).
Proof.
  intros Hq.
  destruct (NewQuery_fresh w (syntax x)) as (nq & Hnew & Hfresh).
  assert (Hne : nq <> q) by (intros ->; congruence).
  set (w' := set_text w nq (syntax x) (sb x)).
  assert (Hq' : forall t, heap (set_text w nq (syntax x) t) !! q = Some x).
  { intros t. by rewrite set_text_lookup_ne. }
  assert (Hcopy : Copy q w = Ok nq w').
  { unfold Copy. unfold bind at 1. unfold deref at 1. rewrite Hq.
    unfold bind at 1. rewrite Hnew.
    unfold bind at 1. unfold sb_Cap, bind at 1, deref at 1. rewrite Hq'.
    unfold ret at 1.
    unfold bind at 1. unfold sb_Grow, bind at 1. rewrite deref_set_text.
    replace (Z.of_nat (String.length (sb x)) <? 0) with false
      by (symmetry; apply Z.ltb_ge; lia).
    unfold ret at 1.
    unfold bind at 1. unfold Query_String, bind at 1, deref at 1. rewrite Hq'.
    unfold ret at 1.
    unfold bind at 1. rewrite WriteString_set_text. by rewrite append_nil_l. }
  exists nq, w'. split; [done|]. split; [done|]. split; [done|].
  split; [apply set_text_lookup|]. split; [apply Hq'|].
  split; [|split; [|split]].
  - intros w0 s. split; by apply WriteString_frame.
  - intros w0 tbl keys. split; by apply InsertInto_frame.
  - intros s. eexists. split; [apply WriteString_set_text|].
    split; [apply set_text_lookup | apply Hq'].
  - intros s. eexists. split; [apply (WriteString_at w' q x s), Hq'|].
    split; [apply set_text_lookup|].
    rewrite set_text_lookup_ne by done. apply set_text_lookup.
Qed.

End BuilderClaims.

Lemma InsertInto_statement_text_witness :
  ["a"; "b"] <> [] /\
  exists q w',
    bind (NewQuery PSQL) (fun q => InsertInto q "t" ["a"; "b"])
         Examples.empty_world = Ok q w' /\
    heap Examples.empty_world !! q = None /\
    Query_String q w' = Ok (insert_text PSQL "t" ["a"; "b"]) w' /\
    heap w' !! q =
    Some {| sb := insert_text PSQL "t" ["a"; "b"]; syntax := PSQL |}.
Proof.
  split; [discriminate|].
  refine (proj1 (InsertInto_statement_text
                   Examples.empty_world PSQL "t" ["a"; "b"] _)).
  discriminate.
Defined.

Lemma Copy_independent_witness :
  heap Examples.one_builder !! 1%positive =
    Some {| sb := "INSERT"; syntax := PSQL |} /\
  exists nq w',
    Copy 1%positive Examples.one_builder = Ok nq w' /\
    nq <> 1%positive /\
    heap w' !! nq = Some {| sb := "INSERT"; syntax := PSQL |}.
Proof.
  split; [reflexivity|].
  destruct (Copy_independent Examples.one_builder 1%positive
              {| sb := "INSERT"; syntax := PSQL |} eq_refl)
    as (nq & w' & Hc & Hne & _ & Hnq & _).
  exists nq, w'. auto.
Defined.

(** ** Execution and bulk load *)

Section ExecFacts.

Context {env : Collaborators}.

Lemma after_nil (w : world) : after w [] = w.
Proof. destruct w as [h tr]. unfold after. simpl. by rewrite app_nil_r. Qed.

Lemma emit_after (w : world) evs e :
  emit e (after w evs) = Ok tt (after w (evs ++ [e])).
Proof. unfold emit, after. simpl. by rewrite app_assoc. Qed.

Lemma emit_first (w : world) e : emit e w = Ok tt (after w [e]).
Proof. reflexivity. Qed.

Lemma deref_after (w : world) evs q x :
  heap w !! q = Some x -> deref q (after w evs) = Ok x (after w evs).
Proof. intros Hq. unfold deref. simpl. by rewrite Hq. Qed.

Lemma scan_id_after (w : world) evs row :
  scan_id row (after w evs) =
  Ok (match fst (Row_Scan row) with Some s => s | None => "" end,
      snd (Row_Scan row))
     (after w (evs ++ [EvScan 1])).
Proof.
  unfold scan_id, bind. rewrite emit_after.
  by destruct (Row_Scan row) as [written err].
Qed.

Lemma WrapCopyIn_deferred_after (w : world) evs tx st err :
  WrapCopyIn_deferred tx st err (after w evs) =
  Ok (match err with Some _ => err | None => Tx_Commit tx end)
     (after w (evs
               ++ match st with Some s => [EvClose s] | None => [] end
               ++ [match err with
                   | Some _ => EvRollback tx
                   | None => EvCommit tx
                   end])).
Proof.
  unfold WrapCopyIn_deferred. unfold bind at 1.
  destruct st as [s|].
  - unfold bind at 1. rewrite emit_after. unfold ret at 1.
    destruct err as [e|]; unfold bind; rewrite emit_after;
      unfold ret; by rewrite <- app_assoc.
  - unfold ret at 1.
    destruct err as [e|]; unfold bind; rewrite emit_after; reflexivity.
Qed.

(** [WrapCopyIn] in closed form, once the transaction is open. *)
Lemma WrapCopyIn_opened (w : world) ctx db table fields fn tx :
  DB_Begin db = inl tx ->
  WrapCopyIn ctx db table fields fn w =
  let query := pq_CopyIn table fields in
  let opened := [EvBegin db; EvPrepareContext tx ctx query] in
  match Tx_PrepareContext tx ctx query with
  | inr e => Ok (Some e) (after w (opened ++ [EvRollback tx]))
  | inl st =>
    match fn st with
    | Panics p =>
      Panic p (after w (opened ++ [EvCallback st; EvClose st; EvCommit tx]))
    | Returns (Some e) =>
      Ok (Some e)
         (after w (opened ++ [EvCallback st; EvClose st; EvRollback tx]))
    | Returns None =>
      match Stmt_Exec st with
      | Some e =>
        Ok (Some e)
           (after w (opened
                     ++ [EvCallback st; EvExec st; EvClose st; EvRollback tx]))
      | None =>
        Ok (Tx_Commit tx)
           (after w (opened
                     ++ [EvCallback st; EvExec st; EvClose st; EvCommit tx]))
      end
    end
  end.
Proof.
  intros Hb. unfold WrapCopyIn. unfold bind at 1. rewrite emit_first, Hb.
  unfold bind at 1. rewrite emit_after. cbv zeta.
  destruct (Tx_PrepareContext tx ctx (pq_CopyIn table fields)) as [st|e].
  - unfold bind at 1. rewrite emit_after.
    destruct (fn st) as [[e|]|p].
    + by rewrite WrapCopyIn_deferred_after.
    + unfold bind at 1. rewrite emit_after, WrapCopyIn_deferred_after.
      by destruct (Stmt_Exec st).
    + unfold bind. by rewrite WrapCopyIn_deferred_after.
  - by rewrite WrapCopyIn_deferred_after.
Qed.

(** When [Begin] fails nothing else is called and its error is returned. *)
Lemma WrapCopyIn_not_opened (w : world) ctx db table fields fn e :
  DB_Begin db = inr e ->
  WrapCopyIn ctx db table fields fn w = Ok (Some e) (after w [EvBegin db]).
Proof.
  intros Hb. unfold WrapCopyIn, bind. by rewrite emit_first, Hb.
Qed.

End ExecFacts.

Section ExecClaims.

Context {env : Collaborators}.

(** C5. [ExecInsert] has three supported targets. For a database handle and
    for a transaction it runs the builder's text with the values in the
    given order, scans the row into one string destination and returns what
    was scanned; for a prepared statement it executes with the values, scans
    nothing and returns the empty identifier; any other target panics. In
    the three supported cases the collaborator's error is returned as the
    second result, whether or not it is [nil]. *)
Theorem ExecInsert_targets (w : world) q x ctx values :
  heap w !! q = Some x ->
  (forall t,
      ExecInsert q (TDB t) ctx values w =
      Ok (match fst (Row_Scan (DB_QueryRowContext t ctx (sb x) values)) with
          | Some id => id
          | None => ""
          end,
          snd (Row_Scan (DB_QueryRowContext t ctx (sb x) values)))
         (after w [EvDBQueryRow t ctx (sb x) values; EvScan 1])) /\
  (forall t,
      ExecInsert q (TTx t) ctx values w =
      Ok (match fst (Row_Scan (Tx_QueryRowContext t ctx (sb x) values)) with
          | Some id => id
          | None => ""
          end,
          snd (Row_Scan (Tx_QueryRowContext t ctx (sb x) values)))
         (after w [EvTxQueryRow t ctx (sb x) values; EvScan 1])) /\
  (forall t,
      ExecInsert q (TStmt t) ctx values w =
      Ok ("", Stmt_ExecContext t ctx values)
         (after w [EvExecContext t ctx values])) /\
  ExecInsert q TOther ctx values w = Panic InvalidType w.
Proof.
  intros Hq. split; [|split; [|split]].
  - intros t. unfold ExecInsert, Query_String.
    unfold bind at 1. unfold bind at 1. rewrite <- (after_nil w) at 1.
    rewrite (deref_after w [] q x Hq). unfold ret at 1.
    unfold bind at 1. rewrite emit_after. by rewrite scan_id_after.
  - intros t. unfold ExecInsert, Query_String.
    unfold bind at 1. unfold bind at 1. rewrite <- (after_nil w) at 1.
    rewrite (deref_after w [] q x Hq). unfold ret at 1.
    unfold bind at 1. rewrite emit_after. by rewrite scan_id_after.
  - reflexivity.
  - reflexivity.
Qed.

(** C10. With a prepared statement as target, [ExecInsert] never reads the
    builder: for any two builder addresses (allocated or not) and any two
    stores of builders it makes the same single call [ExecContext] with the
    given values, returns the empty identifier with that call's error, and
    leaves each store as it was. *)
Theorem ExecInsert_stmt_ignores_builder
        (q1 q2 : loc) (h1 h2 : gmap loc Query) (tr : list event)
        (t : Stmt) (ctx : Ctx) (values : list Any) :
  ExecInsert q1 (TStmt t) ctx values {| heap := h1; trace := tr |} =
    Ok ("", Stmt_ExecContext t ctx values)
       {| heap := h1; trace := tr ++ [EvExecContext t ctx values] |} /\
  ExecInsert q2 (TStmt t) ctx values {| heap := h2; trace := tr |} =
    Ok ("", Stmt_ExecContext t ctx values)
       {| heap := h2; trace := tr ++ [EvExecContext t ctx values] |}.
Proof. split; reflexivity. Qed.

(** What the wrapper does when the callback panics instead of returning:
    the deferred function still runs with [err == nil], so the statement is
    closed and the commit is attempted while the panic unwinds. *)
Lemma WrapCopyIn_callback_panic (w : world) ctx db table fields fn tx st p :
  DB_Begin db = inl tx ->
  Tx_PrepareContext tx ctx (pq_CopyIn table fields) = inl st ->
  fn st = Panics p ->
  WrapCopyIn ctx db table fields fn w =
  Panic p (after w [EvBegin db;
                    EvPrepareContext tx ctx (pq_CopyIn table fields);
                    EvCallback st; EvClose st; EvCommit tx]).
Proof.
  intros Hb Hp Hf. rewrite (WrapCopyIn_opened w ctx db table fields fn tx Hb).
  cbv zeta. by rewrite Hp, Hf.
Qed.


End ExecClaims.

Lemma ExecInsert_targets_witness :
  heap Examples.one_builder !! 1%positive =
    Some {| sb := "INSERT"; syntax := PSQL |} /\
  ExecInsert 1%positive (TDB Examples.db0) Examples.ctx0 Examples.five
             Examples.one_builder =
  Ok ("42", None)
     (after Examples.one_builder
            [EvDBQueryRow Examples.db0 Examples.ctx0 "INSERT" Examples.five;
             EvScan 1]).
Proof.
  split; [reflexivity|].
  exact (proj1 (ExecInsert_targets
                  Examples.one_builder 1%positive
                  {| sb := "INSERT"; syntax := PSQL |}
                  Examples.ctx0 Examples.five eq_refl) Examples.db0).
Defined.



(** ** Further properties of field extraction *)

Section ExtractMore.

Context {V : Type}.
Implicit Types (t : StructField) (f : StructField * V)
         (fs : list (StructField * V)).

(** X1. Extraction accepts a struct or a pointer to a struct, with the same
    result for both, and nothing else: the nil interface, a nil pointer, a
    pointer to a pointer and every other kind panic with "is not a
    struct", and that panic has no other cause. *)
Theorem StructToKVs_not_a_struct (v : Value V) :
  (StructToKVs v = Panics NotAStruct <->
   forall fs, reflect_Indirect v <> VStruct fs) /\
  (forall fs,
      StructToKVs (VPointer (VStruct fs)) = StructToKVs (VStruct fs) /\
      StructToKVs (VPointer (VPointer (VStruct fs))) = Panics NotAStruct) /\
  StructToKVs (@VInvalid V) = Panics NotAStruct /\
  StructToKVs (@VPointer V VInvalid) = Panics NotAStruct /\
  StructToKVs (@VOther V) = Panics NotAStruct.
Proof.
  split; [|repeat split].
  split.
  - intros Hp fs Hv. rewrite (StructToKVs_closed v fs Hv) in Hp.
    destruct (forallb _ _); discriminate.
  - intros Hn. unfold StructToKVs.
    destruct (reflect_Indirect v) as [|fs| |]; try reflexivity.
    by destruct (Hn fs).
Qed.

(** X2. [getName] answers the skip marker in exactly three situations: the
    declared name is empty, its first byte is a lowercase letter, or the
    winning tag (the [sql] tag if non-empty, else the [json] tag if
    non-empty, else the declared name) is empty before its first comma. *)
Theorem getName_empty_iff t :
  getName t = "" <->
  Name t = "" \/
  (exists c rest, Name t = String c rest /\ unicode_IsLower (rune c) = true) \/
  precedence_name t = "".
Proof.
  split.
  - intros Hg. destruct (Name t) as [|c rest] eqn:HN; [by left|].
    destruct (unicode_IsLower (rune c)) eqn:HL.
    + right. left. eauto.
    + right. right. by rewrite <- (getName_visible t c rest HN HL).
  - intros [HN | [Hlow | Hp]].
    + apply getName_hidden. by left.
    + apply getName_hidden. by right.
    + by apply precedence_empty_getName.
Qed.

(** X3. A field whose name is empty, or whose first byte taken on its own
    as a code point is a lowercase letter ([unicode.IsLower] of
    [rune(Name[0])]: a-z, or one of the Latin-1 code points U+00B5,
    U+00DF-U+00F6, U+00F8-U+00FF), is skipped whatever its tags and whether
    or not reflection could read it: the struct without that field is
    extracted with the same result. The test is on the byte, not on the
    first letter: a name whose first letter is lowercase but is encoded
    with another first byte is not covered. *)
Theorem StructToKVs_hidden_field_skipped fs1 f fs2 :
  (Name (fst f) = "" \/
   exists c rest, Name (fst f) = String c rest /\
                  unicode_IsLower (rune c) = true) ->
  getName (fst f) = "" /\
  StructToKVs (VStruct (fs1 ++ f :: fs2)) = StructToKVs (VStruct (fs1 ++ fs2)).
Proof.
  intros Hh. pose proof (getName_hidden _ Hh) as Hn.
  split; [done | by apply StructToKVs_skip].
Qed.

Lemma before_sep_split (s : string) (sep : ascii) :
  ~ In sep (list_ascii_of_string (before_sep s sep)) /\
  exists rest, s = before_sep s sep +:+ rest /\
               (rest = "" \/ exists r, rest = String sep r).
Proof.
  induction s as [|c s [IHn (rest & IHs & IHr)]]; simpl.
  - split; [tauto|]. exists "". split; [reflexivity | by left].
  - destruct (Ascii.eqb_spec c sep) as [->|Hne]; simpl.
    + split; [tauto|]. exists (String sep s). split; [reflexivity|]. eauto.
    + split; [intros [?|?]; [congruence | tauto]|].
      exists rest. split; [|done].
      rewrite append_cons. by rewrite <- IHs.
Qed.

(** X4. A column name taken from a tag is the tag's value up to its first
    comma: the value is the name followed by nothing or by a comma and the
    options, and the name itself holds no comma. This is so for the [sql]
    tag of a visible field, and for its [json] tag when the [sql] tag is
    absent or empty. *)
Theorem getName_tag_prefix t c rest key :
  Name t = String c rest -> unicode_IsLower (rune c) = false ->
  Tag_Get (Tag t) key <> "" ->
  (key = "sql" \/ (key = "json" /\ Tag_Get (Tag t) "sql" = "")) ->
  ~ In ","%char (list_ascii_of_string (getName t)) /\
  exists options,
    Tag_Get (Tag t) key = getName t +:+ options /\
    (options = "" \/ exists r, options = String "," r).
Proof.
  intros HN HL Hkey Hwhich.
  assert (Hg : getName t = before_sep (Tag_Get (Tag t) key) ",").
  { rewrite (getName_visible t c rest HN HL). unfold precedence_name.
    destruct Hwhich as [-> | [-> Hsql]].
    - apply String.eqb_neq in Hkey. by rewrite Hkey.
    - rewrite Hsql. simpl. apply String.eqb_neq in Hkey. by rewrite Hkey. }
  rewrite Hg. apply before_sep_split.
Qed.

(** X5. A struct whose fields are all exported, start with a byte that is
    not a lowercase letter and carry neither an [sql] nor a [json] tag is
    extracted whole: the names are the declared names and the values the
    field values, in declaration order. *)
Theorem StructToKVs_untagged fs :
  Forall (fun f =>
            IsExported (fst f) = true /\
            Tag_Get (Tag (fst f)) "sql" = "" /\
            Tag_Get (Tag (fst f)) "json" = "" /\
            exists c rest, Name (fst f) = String c rest /\
                           unicode_IsLower (rune c) = false) fs ->
  StructToKVs (VStruct fs) =
  Returns (List.map (fun f => Name (fst f)) fs, List.map snd fs).
Proof.
  intros Hall.
  assert (Hname : forall f, f ∈ fs ->
            getName (fst f) = Name (fst f) /\ getName (fst f) <> "" /\
            IsExported (fst f) = true).
  { intros f Hf. rewrite Forall_forall in Hall.
    destruct (Hall f Hf) as (Hx & Hs & Hj & c & rest & HN & HL).
    rewrite (getName_visible _ c rest HN HL). unfold precedence_name.
    rewrite Hs, Hj. simpl. rewrite HN. done. }
  assert (Hext : extracted fs = fs).
  { clear Hall. induction fs as [|f fs IH]; [reflexivity|].
    rewrite extracted_cons.
    destruct (Hname f) as (_ & Hne & _); [by left|].
    apply String.eqb_neq in Hne. rewrite Hne. f_equal.
    apply IH. intros g Hg. apply Hname. by right. }
  rewrite (StructToKVs_closed (VStruct fs) fs eq_refl), Hext.
  replace (forallb (fun f => IsExported (fst f)) fs) with true.
  - f_equal. f_equal. apply List.map_ext_in. intros f Hf.
    apply list_elem_of_In in Hf. by destruct (Hname f Hf).
  - symmetry. apply forallb_forall. intros f Hf.
    apply list_elem_of_In in Hf. by destruct (Hname f Hf) as (_ & _ & ?).
Qed.

(** X6. Extraction never returns more names than the struct has fields, it
    returns as many values as names, and every returned name is non-empty
    and is the precedence name of some field of the struct. *)
Theorem StructToKVs_keys_bounded (v : Value V) fs keys values :
  reflect_Indirect v = VStruct fs ->
  StructToKVs v = Returns (keys, values) ->
  (length keys <= length fs)%nat /\
  length values = length keys /\
  forall k, k ∈ keys ->
            k <> "" /\ exists f, f ∈ fs /\ k = precedence_name (fst f).
Proof.
  intros Hv Hr. rewrite (StructToKVs_closed v fs Hv) in Hr.
  destruct (forallb _ _); [|discriminate]. injection Hr as <- <-.
  rewrite !List.length_map. split; [|split; [done|]].
  - apply sublist_length, extracted_sublist.
  - intros k Hk. apply list_elem_of_In, List.in_map_iff in Hk as (f & <- & Hf).
    apply list_elem_of_In, elem_of_extracted in Hf as [Hf Hne].
    split; [done|]. exists f. split; [done|].
    by apply getName_nonempty_precedence.
Qed.

End ExtractMore.

Lemma StructToKVs_hidden_field_skipped_witness :
  getName (mkStructField "secret" "main" []) = "" /\
  StructToKVs (VStruct Examples.user) =
  StructToKVs (VStruct (firstn 3 Examples.user)).
Proof.
  exact (StructToKVs_hidden_field_skipped
           (firstn 3 Examples.user) (mkStructField "secret" "main" [], 10) []
           (or_intror (ex_intro _ "s"%char
                        (ex_intro _ "ecret" (conj eq_refl eq_refl))))).
Defined.

Lemma getName_tag_prefix_witness :
  ~ In ","%char (list_ascii_of_string
                   (getName (mkStructField "ID" "" [("sql", "id,pk")]))) /\
  exists options,
    "id,pk" = getName (mkStructField "ID" "" [("sql", "id,pk")]) +:+ options /\
    (options = "" \/ exists r, options = String "," r).
Proof.
  refine (getName_tag_prefix (mkStructField "ID" "" [("sql", "id,pk")])
            "I"%char "D" "sql" eq_refl eq_refl _ (or_introl eq_refl)).
  discriminate.
Defined.

Lemma StructToKVs_untagged_witness :
  StructToKVs (VStruct Examples.plain) = Returns (["ID"; "Name"], [1; 2]).
Proof.
  refine (StructToKVs_untagged Examples.plain _).
  repeat constructor; simpl; eauto.
Defined.

Lemma StructToKVs_keys_bounded_witness :
  (length ["id"; "name"; "Age"] <= length Examples.user)%nat /\
  length [7; 8; 9] = length ["id"; "name"; "Age"] /\
  forall k, k ∈ ["id"; "name"; "Age"] ->
            k <> "" /\
            exists f, f ∈ Examples.user /\ k = precedence_name (fst f).
Proof.
  exact (StructToKVs_keys_bounded
           (VStruct Examples.user) Examples.user
           ["id"; "name"; "Age"] [7; 8; 9] eq_refl eq_refl).
Defined.

(** ** Further properties of the query builder *)

Lemma strconv_Itoa_inj (a b : Z) : strconv_Itoa a = strconv_Itoa b -> a = b.
Proof.
  intros H. apply DecimalZ.to_int_inj.
  assert (Hnn : forall z, Z.to_int z <> Decimal.Pos Decimal.Nil /\
                          Z.to_int z <> Decimal.Neg Decimal.Nil).
  { intros [|p|p]; simpl; split; try discriminate;
      intros [= Hp]; by apply (DecimalPos.Unsigned.to_uint_nonnil p). }
  apply (f_equal NilZero.int_of_string) in H. unfold strconv_Itoa in H.
  rewrite !NilZero.isi in H by apply Hnn. congruence.
Qed.

Lemma placeholders_length syn n : length (placeholders syn n) = n.
Proof.
  unfold placeholders. destruct (syn =? PSQL).
  - by rewrite List.length_map, List.length_seq.
  - apply repeat_length.
Qed.

Lemma placeholders_from_lookup (a n i : nat) :
  (i < n)%nat ->
  placeholders_from PSQL a n !! i =
  Some ("$" +:+ strconv_Itoa (Z.of_nat (a + i))).
Proof.
  revert a i. induction n as [|n IH]; intros a i Hi; [lia|].
  rewrite placeholders_from_S. change (PSQL =? 0) with true. cbv iota.
  destruct i as [|i].
  - by rewrite Nat.add_0_r.
  - change ((?x :: ?l) !! S i) with (l !! i).
    rewrite IH by lia. do 3 f_equal. lia.
Qed.

Lemma placeholders_PSQL_NoDup n : NoDup (placeholders PSQL n).
Proof.
  unfold placeholders. change (PSQL =? PSQL) with true. cbv iota.
  apply NoDup_ListNoDup.
  apply Finite.Injective_map_NoDup; [|apply List.seq_NoDup].
  intros i j Hij. rewrite !append_cons, !append_nil_l in Hij.
  injection Hij as Hij. apply strconv_Itoa_inj in Hij. lia.
Qed.

Lemma insert_text_default syn tbl keys :
  syn <> PSQL -> insert_text syn tbl keys = insert_text MySQL tbl keys.
Proof.
  intros Hne. unfold insert_text, placeholders.
  replace (syn =? PSQL) with false by (symmetry; by apply Z.eqb_neq).
  reflexivity.
Qed.

Section BuilderMore.

Context {env : Collaborators}.

(** X7. [InsertInto] does not reset the builder: called twice on the same
    builder it returns that builder holding the first statement
    immediately followed by the second. *)
Theorem InsertInto_twice_appends (w : world) q x tbl1 keys1 tbl2 keys2 :
  heap w !! q = Some x -> keys1 <> [] -> keys2 <> [] ->
  bind (InsertInto q tbl1 keys1) (fun q' => InsertInto q' tbl2 keys2) w =
  Ok q (set_text w q (syntax x)
          (sb x +:+ insert_text (syntax x) tbl1 keys1
                +:+ insert_text (syntax x) tbl2 keys2)).
Proof.
  intros Hq H1 H2. unfold bind.
  rewrite (InsertInto_appends w q x tbl1 keys1 Hq H1).
  destruct keys2 as [|k rest]; [done|].
  by rewrite InsertInto_set_text, append_assoc.
Qed.

(** X8. Every dialect value other than [PSQL] is treated like [MySQL], not
    only the constant [MySQL] itself: the statement has [?] placeholders
    and no [RETURNING] suffix. *)
Theorem InsertInto_default_dialect (w : world) q x tbl keys :
  heap w !! q = Some x -> keys <> [] -> syntax x <> PSQL ->
  InsertInto q tbl keys w =
  Ok q (set_text w q (syntax x)
          (sb x +:+ "INSERT INTO " +:+ tbl +:+ " (" +:+ String.concat "," keys
           +:+ ") VALUES (" +:+ String.concat "," (repeat "?" (length keys))
           +:+ ")")).
Proof.
  intros Hq Hk Hs. rewrite (InsertInto_appends w q x tbl keys Hq Hk).
  by rewrite (insert_text_default _ tbl keys Hs).
Qed.

Lemma InsertInto_nil (w : world) q tbl k rest :
  heap w !! q = None ->
  InsertInto q tbl (k :: rest) w = Panic NilDereference w.
Proof.
  intros Hq. unfold InsertInto, bind at 1, sb_Grow, bind at 1, deref.
  by rewrite Hq.
Qed.

(** X9. Through a nil [*Query], [InsertInto] with columns, [Copy],
    [String] and [ExecInsert] on a database or transaction handle panic on
    the nil dereference; they do so before any call reaches the database
    and without changing any builder. *)
Theorem nil_Query_panics (w : world) q tbl keys ctx values :
  heap w !! q = None ->
  (keys <> [] -> InsertInto q tbl keys w = Panic NilDereference w) /\
  Copy q w = Panic NilDereference w /\
  Query_String q w = Panic NilDereference w /\
  (forall t, ExecInsert q (TDB t) ctx values w = Panic NilDereference w) /\
  (forall t, ExecInsert q (TTx t) ctx values w = Panic NilDereference w).
Proof.
  intros Hq.
  assert (Hd : deref q w = Panic NilDereference w)
    by (unfold deref; by rewrite Hq).
  split; [|repeat split].
  - intros Hk. destruct keys as [|k rest]; [done|].
    by apply InsertInto_nil.
  - unfold Copy, bind at 1. by rewrite Hd.
  - unfold Query_String, bind. by rewrite Hd.
  - intros t. unfold ExecInsert, bind at 1, Query_String, bind at 1.
    by rewrite Hd.
  - intros t. unfold ExecInsert, bind at 1, Query_String, bind at 1.
    by rewrite Hd.
Qed.

(** X10. Whether it returns or panics, [InsertInto] changes nothing but the
    text of the builder it is called on, and that text only grows: no call
    is made on the database, every other builder is as before, the dialect
    is kept, and the old text is a prefix of the new one. *)
Theorem InsertInto_touches_only_its_builder (w : world) q tbl keys :
  let w' := state_of (InsertInto q tbl keys w) in
  trace w' = trace w /\
  (forall l, l <> q -> heap w' !! l = heap w !! l) /\
  match heap w !! q with
  | Some x =>
    exists written,
      heap w' !! q = Some {| sb := sb x +:+ written; syntax := syntax x |}
  | None => heap w' !! q = None
  end.
Proof.
  cbv zeta. destruct keys as [|k rest].
  - change (state_of (InsertInto q tbl [] w)) with w.
    split; [done|]. split; [done|].
    destruct (heap w !! q) as [x|]; [|done].
    exists "". rewrite append_nil_r. by destruct x.
  - destruct (heap w !! q) as [x|] eqn:Hq.
    + rewrite (InsertInto_appends w q x tbl (k :: rest) Hq) by done.
      split; [done|]. split.
      * intros l Hl. by apply set_text_lookup_ne.
      * eexists. apply set_text_lookup.
    + rewrite (InsertInto_nil w q tbl k rest Hq). simpl. by rewrite Hq.
Qed.

(** X11. The statement has one placeholder per column. Under [PSQL] the
    placeholder at position [i] (from 0) is [$] followed by the decimal
    numeral of [i + 1], and the placeholders are pairwise distinct;
    otherwise each one is [?]. *)
Theorem InsertInto_placeholders (w : world) q x tbl keys :
  heap w !! q = Some x -> keys <> [] ->
  exists ps,
    InsertInto q tbl keys w =
    Ok q (set_text w q (syntax x)
            (sb x +:+ "INSERT INTO " +:+ tbl +:+ " ("
             +:+ String.concat "," keys +:+ ") VALUES ("
             +:+ String.concat "," ps +:+ ")"
             +:+ (if syntax x =? 0 then " RETURNING id" else ""))) /\
    length ps = length keys /\
    (syntax x = PSQL ->
       NoDup ps /\
       forall i, (i < length keys)%nat ->
                 ps !! i = Some ("$" +:+ strconv_Itoa (Z.of_nat i + 1))) /\
    (syntax x <> PSQL -> forall p, p ∈ ps -> p = "?").
Proof.
  intros Hq Hk. exists (placeholders (syntax x) (length keys)).
  split; [by rewrite (InsertInto_appends w q x tbl keys Hq Hk)|].
  split; [apply placeholders_length|]. split.
  - intros ->. split; [apply placeholders_PSQL_NoDup|].
    intros i Hi. change (placeholders PSQL (length keys))
      with (placeholders_from PSQL 1 (length keys)).
    rewrite placeholders_from_lookup by done. do 3 f_equal. lia.
  - intros Hs p Hp. unfold placeholders in Hp.
    replace (syntax x =? PSQL) with false in Hp
      by (symmetry; by apply Z.eqb_neq).
    apply list_elem_of_In in Hp. by apply repeat_spec in Hp.
Qed.

(** X12. Two builders made one after the other are different objects: the
    second [NewQuery] returns an address other than the first, each starts
    with empty text and its own dialect, and the builders that existed
    before are untouched. *)
Theorem NewQuery_distinct (w : world) syn1 syn2 :
  exists q1 q2 w',
    bind (NewQuery syn1)
         (fun q1 => bind (NewQuery syn2) (fun q2 => ret (q1, q2))) w =
    Ok (q1, q2) w' /\
    q1 <> q2 /\
    heap w !! q1 = None /\ heap w !! q2 = None /\
    heap w' !! q1 = Some {| sb := ""; syntax := syn1 |} /\
    heap w' !! q2 = Some {| sb := ""; syntax := syn2 |} /\
    trace w' = trace w /\
    forall l x, heap w !! l = Some x -> heap w' !! l = Some x.
Proof.
  destruct (NewQuery_fresh w syn1) as (q1 & H1 & Hf1).
  destruct (NewQuery_fresh (set_text w q1 syn1 "") syn2) as (q2 & H2 & Hf2).
  assert (Hne : q1 <> q2).
  { intros <-. by rewrite set_text_lookup in Hf2. }
  rewrite set_text_lookup_ne in Hf2 by done.
  exists q1, q2, (set_text (set_text w q1 syn1 "") q2 syn2 "").
  split; [unfold bind; by rewrite H1, H2|]. split; [done|].
  split; [done|]. split; [done|].
  split.
  { rewrite set_text_lookup_ne by done. apply set_text_lookup. }
  split; [apply set_text_lookup|]. split; [done|].
  intros l x Hl.
  rewrite !set_text_lookup_ne; [done | congruence | congruence].
Qed.

End BuilderMore.

Lemma InsertInto_twice_appends_witness :
  bind (InsertInto 1%positive "t" ["a"]) (fun q' => InsertInto q' "u" ["b"])
       Examples.one_builder =
  Ok 1%positive
     (set_text Examples.one_builder 1%positive PSQL
        ("INSERT" +:+ insert_text PSQL "t" ["a"] +:+ insert_text PSQL "u" ["b"])).
Proof.
  refine (InsertInto_twice_appends Examples.one_builder 1%positive
            {| sb := "INSERT"; syntax := PSQL |} "t" ["a"] "u" ["b"]
            eq_refl _ _); discriminate.
Defined.

Lemma InsertInto_default_dialect_witness :
  InsertInto 1%positive "t" ["a"; "b"] Examples.odd_builder =
  Ok 1%positive
     (set_text Examples.odd_builder 1%positive 7
        "INSERT INTO t (a,b) VALUES (?,?)").
Proof.
  refine (InsertInto_default_dialect Examples.odd_builder 1%positive
            {| sb := ""; syntax := 7 |} "t" ["a"; "b"] eq_refl _ _);
    discriminate.
Defined.

Lemma nil_Query_panics_witness :
  Copy 1%positive Examples.empty_world =
    Panic NilDereference Examples.empty_world /\
  Query_String 1%positive Examples.empty_world =
    Panic NilDereference Examples.empty_world.
Proof.
  destruct (nil_Query_panics Examples.empty_world 1%positive "t" ["a"]
              Examples.ctx0 Examples.five eq_refl)
    as (_ & Hc & Hs & _).
  exact (conj Hc Hs).
Defined.

Lemma InsertInto_placeholders_witness :
  exists ps,
    InsertInto 1%positive "t" ["a"; "b"] Examples.one_builder =
    Ok 1%positive
       (set_text Examples.one_builder 1%positive PSQL
          ("INSERT" +:+ "INSERT INTO " +:+ "t" +:+ " ("
           +:+ String.concat "," ["a"; "b"] +:+ ") VALUES ("
           +:+ String.concat "," ps +:+ ")" +:+ " RETURNING id")) /\
    length ps = 2%nat /\ NoDup ps.
Proof.
  destruct (InsertInto_placeholders Examples.one_builder 1%positive
              {| sb := "INSERT"; syntax := PSQL |} "t" ["a"; "b"] eq_refl)
    as (ps & Hrun & Hlen & Hpsql & _); [discriminate|].
  exists ps. split; [exact Hrun|]. split; [exact Hlen|].
  exact (proj1 (Hpsql eq_refl)).
Defined.

(** ** From a struct to an executed statement *)

Section Pipeline.

Context {env : Collaborators}.

Lemma ExecInsert_DB_at (w : world) q x t ctx values :
  heap w !! q = Some x ->
  ExecInsert q (TDB t) ctx values w =
  Ok (match fst (Row_Scan (DB_QueryRowContext t ctx (sb x) values)) with
      | Some id => id
      | None => ""
      end,
      snd (Row_Scan (DB_QueryRowContext t ctx (sb x) values)))
     (after w [EvDBQueryRow t ctx (sb x) values; EvScan 1]).
Proof.
  intros Hq. unfold ExecInsert, Query_String.
  unfold bind at 1. unfold bind at 1. rewrite <- (after_nil w) at 1.
  rewrite (deref_after w [] q x Hq). unfold ret at 1.
  unfold bind at 1. rewrite emit_after. by rewrite scan_id_after.
Qed.

Lemma ExecInsert_Tx_at (w : world) q x t ctx values :
  heap w !! q = Some x ->
  ExecInsert q (TTx t) ctx values w =
  Ok (match fst (Row_Scan (Tx_QueryRowContext t ctx (sb x) values)) with
      | Some id => id
      | None => ""
      end,
      snd (Row_Scan (Tx_QueryRowContext t ctx (sb x) values)))
     (after w [EvTxQueryRow t ctx (sb x) values; EvScan 1]).
Proof.
  intros Hq. unfold ExecInsert, Query_String.
  unfold bind at 1. unfold bind at 1. rewrite <- (after_nil w) at 1.
  rewrite (deref_after w [] q x Hq). unfold ret at 1.
  unfold bind at 1. rewrite emit_after. by rewrite scan_id_after.
Qed.

(** X13. The intended flow fits together: for a struct with at least one
    extracted field, all extracted fields being exported, the names from
    [StructToKVs] are accepted by [InsertInto] on a fresh builder, the
    statement has exactly as many placeholders as [StructToKVs] returned
    values, and [ExecInsert] on a database handle sends that statement with
    those values. *)
Theorem extract_insert_exec (w : world) (fs : list (StructField * Any))
        syn tbl t ctx :
  forallb (fun f => IsExported (fst f)) (extracted fs) = true ->
  extracted fs <> [] ->
  exists keys values q w',
    StructToKVs (VStruct fs) = Returns (keys, values) /\
    bind (NewQuery syn) (fun q => InsertInto q tbl keys) w = Ok q w' /\
    length (placeholders syn (length keys)) = length values /\
    ExecInsert q (TDB t) ctx values w' =
    Ok (match fst (Row_Scan (DB_QueryRowContext
                               t ctx (insert_text syn tbl keys) values)) with
        | Some id => id
        | None => ""
        end,
        snd (Row_Scan (DB_QueryRowContext
                         t ctx (insert_text syn tbl keys) values)))
       (after w' [EvDBQueryRow t ctx (insert_text syn tbl keys) values;
                  EvScan 1]).
Proof.
  intros Hx Hne.
  set (keys := List.map (fun f => getName (fst f)) (extracted fs)).
  set (values := List.map snd (extracted fs)).
  assert (Hk : keys <> []).
  { unfold keys. destruct (extracted fs); [done | discriminate]. }
  destruct (NewQuery_fresh w syn) as (q & Hnew & Hfresh).
  exists keys, values, q, (set_text w q syn (insert_text syn tbl keys)).
  split.
  { rewrite (StructToKVs_closed (VStruct fs) fs eq_refl). by rewrite Hx. }
  split.
  { unfold bind. rewrite Hnew. destruct keys as [|k rest]; [done|].
    by rewrite InsertInto_set_text, append_nil_l. }
  split.
  { rewrite placeholders_length. unfold keys, values.
    by rewrite !List.length_map. }
  apply (ExecInsert_DB_at _ q {| sb := insert_text syn tbl keys;
                                 syntax := syn |}).
  apply set_text_lookup.
Qed.

(** X14. A struct none of whose fields is extracted (the empty struct, or
    one with hidden fields only) gives two empty slices, and passing these
    names on to [InsertInto] panics for want of a key. *)
Theorem extract_nothing_then_insert_panics
        (w : world) (fs : list (StructField * Any)) q tbl :
  Forall (fun f => getName (fst f) = "") fs ->
  exists keys values,
    StructToKVs (VStruct fs) = Returns (keys, values) /\
    keys = [] /\ values = [] /\
    InsertInto q tbl keys w = Panic NeedKey w.
Proof.
  intros Hall.
  assert (He : extracted fs = []).
  { induction Hall as [|f fs Hf _ IH]; [reflexivity|].
    by rewrite extracted_cons, Hf. }
  exists [], []. split; [|done].
  rewrite (StructToKVs_closed (VStruct fs) fs eq_refl). by rewrite He.
Qed.

(** X15. A copy can stand in for its source at execution: [ExecInsert] on
    the copy, with a database handle or a transaction, sends exactly the
    text the source held when it was copied. *)
Theorem Copy_then_ExecInsert (w : world) q x ctx values :
  heap w !! q = Some x ->
  exists nq w',
    Copy q w = Ok nq w' /\
    (forall t,
        ExecInsert nq (TDB t) ctx values w' =
        Ok (match fst (Row_Scan (DB_QueryRowContext t ctx (sb x) values)) with
            | Some id => id
            | None => ""
            end,
            snd (Row_Scan (DB_QueryRowContext t ctx (sb x) values)))
           (after w' [EvDBQueryRow t ctx (sb x) values; EvScan 1])) /\
    (forall t,
        ExecInsert nq (TTx t) ctx values w' =
        Ok (match fst (Row_Scan (Tx_QueryRowContext t ctx (sb x) values)) with
            | Some id => id
            | None => ""
            end,
            snd (Row_Scan (Tx_QueryRowContext t ctx (sb x) values)))
           (after w' [EvTxQueryRow t ctx (sb x) values; EvScan 1])).
Proof.
  intros Hq.
  destruct (NewQuery_fresh w (syntax x)) as (nq & Hnew & Hfresh).
  assert (Hne : nq <> q) by (intros ->; congruence).
  assert (Hq' : forall u, heap (set_text w nq (syntax x) u) !! q = Some x).
  { intros u. by rewrite set_text_lookup_ne. }
  exists nq, (set_text w nq (syntax x) (sb x)). split.
  { unfold Copy. unfold bind at 1. unfold deref at 1. rewrite Hq.
    unfold bind at 1. rewrite Hnew.
    unfold bind at 1. unfold sb_Cap, bind at 1, deref at 1. rewrite Hq'.
    unfold ret at 1.
    unfold bind at 1. unfold sb_Grow, bind at 1. rewrite deref_set_text.
    replace (Z.of_nat (String.length (sb x)) <? 0) with false
      by (symmetry; apply Z.ltb_ge; lia).
    unfold ret at 1.
    unfold bind at 1. unfold Query_String, bind at 1, deref at 1. rewrite Hq'.
    unfold ret at 1.
    unfold bind at 1. rewrite WriteString_set_text. by rewrite append_nil_l. }
  split; intros t.
  - apply (ExecInsert_DB_at _ nq {| sb := sb x; syntax := syntax x |}).
    apply set_text_lookup.
  - apply (ExecInsert_Tx_at _ nq {| sb := sb x; syntax := syntax x |}).
    apply set_text_lookup.
Qed.

(** X16. [ExecInsert] never writes to a builder, whatever the target and
    whether it returns or panics, so a built statement can be executed
    again: two executions in a row send the same text, each with its own
    values. *)
Theorem ExecInsert_repeatable (w : world) q x t ctx values1 values2 :
  heap w !! q = Some x ->
  (forall ins values,
      heap (state_of (ExecInsert q ins ctx values w)) = heap w) /\
  exists r,
    bind (ExecInsert q (TDB t) ctx values1)
         (fun _ => ExecInsert q (TDB t) ctx values2) w =
    Ok r (after w [EvDBQueryRow t ctx (sb x) values1; EvScan 1;
                   EvDBQueryRow t ctx (sb x) values2; EvScan 1]).
Proof.
  intros Hq. split.
  - intros [t'|t'|t'|] values.
    + by rewrite (ExecInsert_DB_at w q x t' ctx values Hq).
    + by rewrite (ExecInsert_Tx_at w q x t' ctx values Hq).
    + reflexivity.
    + reflexivity.
  - eexists. unfold bind. rewrite (ExecInsert_DB_at w q x t ctx values1 Hq).
    rewrite (ExecInsert_DB_at _ q x t ctx values2) by done.
    unfold after. simpl. by rewrite <- app_assoc.
Qed.

End Pipeline.

Lemma extract_insert_exec_witness :
  exists keys values q w',
    StructToKVs (VStruct Examples.user) = Returns (keys, values) /\
    bind (NewQuery PSQL) (fun q => InsertInto q "users" keys)
         Examples.empty_world = Ok q w' /\
    length (placeholders PSQL (length keys)) = length values.
Proof.
  destruct (extract_insert_exec Examples.empty_world Examples.user PSQL
              "users" Examples.db0 Examples.ctx0 eq_refl)
    as (keys & values & q & w' & He & Hi & Hl & _); [discriminate|].
  exists keys, values, q, w'. auto.
Defined.

Lemma extract_nothing_then_insert_panics_witness :
  exists keys values,
    StructToKVs (VStruct [(mkStructField "secret" "main" [], 10)]) =
      Returns (keys, values) /\
    keys = [] /\ values = [] /\
    InsertInto 1%positive "t" keys Examples.one_builder =
      Panic NeedKey Examples.one_builder.
Proof.
  refine (extract_nothing_then_insert_panics
            Examples.one_builder [(mkStructField "secret" "main" [], 10)]
            1%positive "t" _).
  repeat constructor.
Defined.

Lemma Copy_then_ExecInsert_witness :
  exists nq w',
    Copy 1%positive Examples.one_builder = Ok nq w' /\
    ExecInsert nq (TDB Examples.db0) Examples.ctx0 Examples.five w' =
    Ok ("42", None)
       (after w' [EvDBQueryRow Examples.db0 Examples.ctx0 "INSERT"
                               Examples.five; EvScan 1]).
Proof.
  destruct (Copy_then_ExecInsert Examples.one_builder 1%positive
              {| sb := "INSERT"; syntax := PSQL |}
              Examples.ctx0 Examples.five eq_refl)
    as (nq & w' & Hc & Hdb & _).
  exists nq, w'. split; [exact Hc | exact (Hdb Examples.db0)].
Defined.

Lemma ExecInsert_repeatable_witness :
  exists r,
    bind (ExecInsert 1%positive (TDB Examples.db0) Examples.ctx0 Examples.five)
         (fun _ => ExecInsert 1%positive (TDB Examples.db0) Examples.ctx0 [])
         Examples.one_builder =
    Ok r (after Examples.one_builder
            [EvDBQueryRow Examples.db0 Examples.ctx0 "INSERT" Examples.five;
             EvScan 1;
             EvDBQueryRow Examples.db0 Examples.ctx0 "INSERT" [];
             EvScan 1]).
Proof.
  exact (proj2 (ExecInsert_repeatable
                  Examples.one_builder 1%positive
                  {| sb := "INSERT"; syntax := PSQL |}
                  Examples.db0 Examples.ctx0 Examples.five [] eq_refl)).
Defined.

(** ** Further properties of the bulk-load wrapper *)

Section BulkLoadMore.

Context {env : Collaborators}.

(** X17. When [Begin] fails, the wrapper returns its error at once: no
    statement is prepared, the callback is not invoked, and nothing is
    closed, committed or rolled back. *)
Theorem WrapCopyIn_begin_failure (w : world) ctx db table fields fn e :
  DB_Begin db = inr e ->
  exists evs,
    WrapCopyIn ctx db table fields fn w = Ok (Some e) (after w evs) /\
    evs = [EvBegin db] /\
    List.filter is_callback evs = [] /\
    List.filter is_close evs = [] /\
    List.filter is_resolution evs = [].
Proof.
  intros Hb. exists [EvBegin db].
  split; [by apply WrapCopyIn_not_opened | done].
Qed.

(** X18. A callback that panics does not roll the transaction back: while
    the panic unwinds, the deferred function closes the statement and
    attempts the commit, the final [Exec] is not called, and the panic then
    reaches the caller. *)
Theorem WrapCopyIn_panicking_callback_commits
        (w : world) ctx db table fields fn tx st p :
  DB_Begin db = inl tx ->
  Tx_PrepareContext tx ctx (pq_CopyIn table fields) = inl st ->
  fn st = Panics p ->
  exists evs,
    WrapCopyIn ctx db table fields fn w = Panic p (after w evs) /\
    In (EvCommit tx) evs /\
    In (EvClose st) evs /\
    List.filter is_rollback evs = [] /\
    List.filter is_exec evs = [].
Proof.
  intros Hb Hp Hf. eexists. split.
  - by apply (WrapCopyIn_callback_panic w ctx db table fields fn tx st p).
  - simpl. tauto.
Qed.

(** X19. Once the transaction is open it is resolved exactly once, by the
    last call the wrapper makes, a commit or a rollback of that
    transaction, however prepare, the callback (even a panicking one) and
    the final [Exec] turn out. Before that, the statement is prepared from
    [pq.CopyIn(table, fields...)], the callback is invoked once if prepare
    succeeded and not at all otherwise, and the final [Exec] is called once
    if the callback returned no error and not at all otherwise. *)
Theorem WrapCopyIn_resolves_once
        (w : world) ctx db table fields (fn : Stmt -> outcome error) tx :
  DB_Begin db = inl tx ->
  exists middle last,
    state_of (WrapCopyIn ctx db table fields fn w) =
    after w ([EvBegin db; EvPrepareContext tx ctx (pq_CopyIn table fields)]
             ++ middle ++ [last]) /\
    (last = EvCommit tx \/ last = EvRollback tx) /\
    List.filter is_resolution middle = [] /\
    length (List.filter is_callback middle) =
      match Tx_PrepareContext tx ctx (pq_CopyIn table fields) with
      | inl _ => 1%nat
      | inr _ => 0%nat
      end /\
    length (List.filter is_exec middle) =
      match Tx_PrepareContext tx ctx (pq_CopyIn table fields) with
      | inl st => match fn st with Returns None => 1%nat | _ => 0%nat end
      | inr _ => 0%nat
      end.
Proof.
  intros Hb.
  rewrite (WrapCopyIn_opened w ctx db table fields fn tx Hb). cbv zeta.
  destruct (Tx_PrepareContext tx ctx (pq_CopyIn table fields)) as [st|e].
  - destruct (fn st) as [[e|]|p]; [| destruct (Stmt_Exec st) as [e|] |].
    + exists [EvCallback st; EvClose st], (EvRollback tx). simpl. auto.
    + exists [EvCallback st; EvExec st; EvClose st], (EvRollback tx).
      simpl. auto.
    + exists [EvCallback st; EvExec st; EvClose st], (EvCommit tx).
      simpl. auto.
    + exists [EvCallback st; EvClose st], (EvCommit tx). simpl. auto.
  - exists [], (EvRollback tx). simpl. auto.
Qed.

End BulkLoadMore.

Lemma WrapCopyIn_begin_failure_witness :
  exists evs,
    WrapCopyIn Examples.refusing_ctx Examples.refusing_db "t" ["a"]
               Examples.refusing_fn Examples.refusing_world =
    Ok (Some "connection refused") (after Examples.refusing_world evs) /\
    evs = [EvBegin Examples.refusing_db].
Proof.
  destruct (WrapCopyIn_begin_failure
              Examples.refusing_world Examples.refusing_ctx
              Examples.refusing_db "t" ["a"] Examples.refusing_fn
              "connection refused" eq_refl)
    as (evs & Hrun & Hevs & _).
  exists evs. split; [exact Hrun | exact Hevs].
Defined.

Lemma WrapCopyIn_panicking_callback_commits_witness :
  exists evs,
    WrapCopyIn Examples.ctx0 Examples.db0 "t" ["a"] Examples.panicking
               Examples.empty_world =
    Panic CallbackPanic (after Examples.empty_world evs) /\
    In (EvCommit Examples.tx1) evs.
Proof.
  destruct (WrapCopyIn_panicking_callback_commits
              Examples.empty_world Examples.ctx0 Examples.db0 "t" ["a"]
              Examples.panicking Examples.tx1 Examples.stmt2 CallbackPanic
              eq_refl eq_refl eq_refl)
    as (evs & Hrun & Hc & _).
  exists evs. split; [exact Hrun | exact Hc].
Defined.

Lemma WrapCopyIn_resolves_once_witness :
  exists middle last,
    state_of (WrapCopyIn Examples.ctx0 Examples.db0 "t" ["a"]
                         Examples.rejecting Examples.empty_world) =
    after Examples.empty_world
          ([EvBegin Examples.db0;
            EvPrepareContext Examples.tx1 Examples.ctx0
                             (pq_CopyIn (Collaborators := Examples.healthy)
                                        "t" ["a"])]
           ++ middle ++ [last]) /\
    (last = EvCommit Examples.tx1 \/ last = EvRollback Examples.tx1).
Proof.
  destruct (WrapCopyIn_resolves_once
              Examples.empty_world Examples.ctx0 Examples.db0 "t" ["a"]
              Examples.rejecting Examples.tx1 eq_refl)
    as (middle & last & Hrun & Hlast & _).
  exists middle, last. split; [exact Hrun | exact Hlast].
Defined.
